(** * The Library borrow/return workflow of Self-Study-Gtest/project_library.cpp

    A shallow embedding of the classes [Book], [Member],
    [FakeNotificationService] and [Library], followed by the properties of
    the borrow/return state transitions.

    Modelling choices.
    - [std::map<std::string, Book *>] and [std::map<std::string, Member *>]
      are finite maps from strings to records.  Every pointer stored in one of
      the two maps comes from a [new] expression evaluated in the very
      assignment that stores it, so no record is shared between two keys and a
      mutation through the pointer found under a key is an update of the
      entry under that key.
    - [std::vector<std::string>] is a list, [push_back] appends at the end.
    - The notification service is the fake of the test file: it records the
      calls it receives, in arrival order.
    - [int] values are integers in [Z]; the one place where the source mixes
      [int] with [size_t] (the comparison in [Member::canBorrow]) has its
      conversion written out. *)

From stdpp Require Import base strings list gmap fin_maps.
From Stdlib Require Import ZArith Lia.

Local Open Scope Z_scope.

(** ** Book *)

Module Book.

Record t : Type := mk
  { id : string;
    title : string;
    author : string;
    available : bool }.

(** [Book(id, title, author)]: the constructor sets [available(true)]. *)
Definition new (id title author : string) : t :=
  {| id := id; title := title; author := author; available := true |}.

Definition getId (b : t) : string := id b.
Definition getTitle (b : t) : string := title b.
Definition getAuthor (b : t) : string := author b.
Definition isAvailable (b : t) : bool := available b.

Definition markBorrowed (b : t) : t :=
  {| id := id b; title := title b; author := author b; available := false |}.

Definition markReturned (b : t) : t :=
  {| id := id b; title := title b; author := author b; available := true |}.

End Book.

(** ** Member *)

Module Member.

Record t : Type := mk
  { id : string;
    name : string;
    borrowedBookIds : list string;
    maxBooks : Z }.

(** [Member(id, name, maxBooks = 3)]: the vector starts empty. *)
Definition new (id name : string) (maxBooks : Z) : t :=
  {| id := id; name := name; borrowedBookIds := []; maxBooks := maxBooks |}.

Definition default_maxBooks : Z := 3.

Definition getId (m : t) : string := id m.
Definition getName (m : t) : string := name m.
Definition getMaxBooks (m : t) : Z := maxBooks m.

(** [borrowedBookIds.size()], a [size_t]. *)
Definition size (m : t) : Z := Z.of_nat (length (borrowedBookIds m)).

Definition getBorrowedCount (m : t) : Z := size m.

(** The conversion of an [int] to the 64-bit unsigned [size_t]. *)
Definition to_size_t (z : Z) : Z := z mod 2 ^ 64.

(** [borrowedBookIds.size() < maxBooks]: the operands are a [size_t] and an
    [int], so the [int] is converted to [size_t] before the comparison. *)
Definition canBorrow (m : t) : bool := size m <? to_size_t (maxBooks m).

Definition addBorrowedBook (bookId : string) (m : t) : t :=
  {| id := id m; name := name m;
     borrowedBookIds := borrowedBookIds m ++ [bookId];
     maxBooks := maxBooks m |}.

(** The loop of [removeBorrowedBook] over the vector: erase the first element
    equal to [bookId] and report whether there was one. *)
Fixpoint erase_first (bookId : string) (ids : list string) : bool * list string :=
  match ids with
  | [] => (false, [])
  | x :: rest =>
      if String.eqb x bookId then (true, rest)
      else let '(found, rest') := erase_first bookId rest in (found, x :: rest')
  end.

Definition removeBorrowedBook (bookId : string) (m : t) : bool * t :=
  let '(found, ids) := erase_first bookId (borrowedBookIds m) in
  (found, {| id := id m; name := name m; borrowedBookIds := ids;
             maxBooks := maxBooks m |}).

(** The loop of [hasBorrowedBook]. *)
Fixpoint scan (bookId : string) (ids : list string) : bool :=
  match ids with
  | [] => false
  | x :: rest => if String.eqb x bookId then true else scan bookId rest
  end.

Definition hasBorrowedBook (bookId : string) (m : t) : bool :=
  scan bookId (borrowedBookIds m).

End Member.

(** ** FakeNotificationService *)

Module FakeNotificationService.

Record t : Type := mk { sentNotifications : list (string * string) }.

Definition new : t := {| sentNotifications := [] |}.

Definition sendNotification (memberId message : string) (n : t) : t :=
  {| sentNotifications := sentNotifications n ++ [(memberId, message)] |}.

Definition getNotificationCount (n : t) : Z :=
  Z.of_nat (length (sentNotifications n)).

Definition getLastMessage (n : t) : string :=
  match last (sentNotifications n) with
  | None => EmptyString
  | Some p => snd p
  end.

Definition getLastRecipient (n : t) : string :=
  match last (sentNotifications n) with
  | None => EmptyString
  | Some p => fst p
  end.

Definition clear (n : t) : t := {| sentNotifications := [] |}.

End FakeNotificationService.

(** ** Library *)

Record Library : Type := mkLibrary
  { books : gmap string Book.t;
    members : gmap string Member.t;
    notificationService : FakeNotificationService.t }.

(** [Library(notifService)]: both maps start empty. *)
Definition Library_new (notifService : FakeNotificationService.t) : Library :=
  {| books := ∅; members := ∅; notificationService := notifService |}.

Definition set_books (bs : gmap string Book.t) (l : Library) : Library :=
  {| books := bs; members := members l;
     notificationService := notificationService l |}.

Definition set_members (ms : gmap string Member.t) (l : Library) : Library :=
  {| books := books l; members := ms;
     notificationService := notificationService l |}.

Definition set_notificationService (n : FakeNotificationService.t)
    (l : Library) : Library :=
  {| books := books l; members := members l; notificationService := n |}.

(** [books[id] = new Book(id, title, author)] *)
Definition addBook (id title author : string) (l : Library) : Library :=
  set_books (<[id := Book.new id title author]> (books l)) l.

(** [nullptr] is [None]. *)
Definition findBook (id : string) (l : Library) : option Book.t :=
  books l !! id.

(** The counting loop over all books. *)
Definition getAvailableBookCount (l : Library) : Z :=
  map_fold (fun _ b count => if Book.isAvailable b then count + 1 else count)
           0 (books l).

(** [members[id] = new Member(id, name)] *)
Definition registerMember (id name : string) (l : Library) : Library :=
  set_members
    (<[id := Member.new id name Member.default_maxBooks]> (members l)) l.

Definition findMember (id : string) (l : Library) : option Member.t :=
  members l !! id.

(** A write through the [Book *] found under [bookId]. *)
Definition store_book (bookId : string) (b : Book.t) (l : Library) : Library :=
  set_books (<[bookId := b]> (books l)) l.

(** A write through the [Member *] found under [memberId]. *)
Definition store_member (memberId : string) (m : Member.t) (l : Library)
    : Library :=
  set_members (<[memberId := m]> (members l)) l.

Definition notify (memberId message : string) (l : Library) : Library :=
  set_notificationService
    (FakeNotificationService.sendNotification memberId message
       (notificationService l)) l.

Definition borrowBook (memberId bookId : string) (l : Library)
    : bool * Library :=
  match findMember memberId l, findBook bookId l with
  | Some member, Some book =>
      if negb (Book.isAvailable book) then (false, l)
      else if negb (Member.canBorrow member) then (false, l)
      else
        let l1 := store_book bookId (Book.markBorrowed book) l in
        let l2 := store_member memberId
                    (Member.addBorrowedBook bookId member) l1 in
        let message := "You have borrowed: " +:+ Book.getTitle book in
        (true, notify memberId message l2)
  | _, _ => (false, l)
  end.

Definition returnBook (memberId bookId : string) (l : Library)
    : bool * Library :=
  match findMember memberId l, findBook bookId l with
  | Some member, Some book =>
      if negb (Member.hasBorrowedBook bookId member) then (false, l)
      else
        let l1 := store_book bookId (Book.markReturned book) l in
        let l2 := store_member memberId
                    (snd (Member.removeBorrowedBook bookId member)) l1 in
        let message := "You have returned: " +:+ Book.getTitle book in
        (true, notify memberId message l2)
  | _, _ => (false, l)
  end.

(** ** Sequences of calls *)

Inductive Op : Type :=
  | AddBook (id title author : string)
  | RegisterMember (id name : string)
  | BorrowBook (memberId bookId : string)
  | ReturnBook (memberId bookId : string).

Definition step (l : Library) (o : Op) : Library :=
  match o with
  | AddBook id title author => addBook id title author l
  | RegisterMember id name => registerMember id name l
  | BorrowBook memberId bookId => snd (borrowBook memberId bookId l)
  | ReturnBook memberId bookId => snd (returnBook memberId bookId l)
  end.

Definition run (ops : list Op) (l : Library) : Library := foldl step l ops.

Definition empty_library : Library := Library_new FakeNotificationService.new.

(** A state is reachable when some sequence of calls on a freshly constructed
    library produces it. *)
Definition reachable (l : Library) : Prop :=
  ∃ ops : list Op, run ops empty_library = l.

(** The fixture of the test file. *)
Definition SetUp : Library :=
  run [ AddBook "B001" "Clean Code" "Robert Martin";
        AddBook "B002" "Design Patterns" "Gang of Four";
        AddBook "B003" "The Pragmatic Programmer" "Hunt & Thomas";
        RegisterMember "M001" "Alice";
        RegisterMember "M002" "Bob" ] empty_library.

(** ** The notification service as an interface

    [Library] holds an [INotificationService *] and calls the pure virtual
    [sendNotification] through it.  An implementation either returns or lets
    an exception escape; nothing in [Library] catches one.  The definitions
    above fix the implementation to the recording fake, which always returns;
    the ones below take any implementation. *)

Module INotificationService.

(** How a call ends: it returns a result, or an exception leaves it; either
    way it leaves a state behind. *)
Inductive completion (R S : Type) : Type :=
  | Returns (result : R) (state : S)
  | Throws (state : S).

Arguments Returns {R S} result state.
Arguments Throws {R S} state.

(** [virtual void sendNotification(memberId, message) = 0] *)
Class t (N : Type) : Type :=
  sendNotification : string → string → N → completion unit N.

End INotificationService.

(** [class FakeNotificationService : public INotificationService] *)
#[export] Instance FakeNotificationService_service :
    INotificationService.t FakeNotificationService.t :=
  fun memberId message n =>
    INotificationService.Returns tt
      (FakeNotificationService.sendNotification memberId message n).

(** An implementation whose [sendNotification] throws on every call. *)
Inductive ThrowingNotificationService : Type := throwing_service.

#[export] Instance ThrowingNotificationService_service :
    INotificationService.t ThrowingNotificationService :=
  fun _ _ n => INotificationService.Throws n.

Module Injected.

(** The library with the state of whatever service was passed to its
    constructor. *)
Record Library (N : Type) : Type := mk
  { books : gmap string Book.t;
    members : gmap string Member.t;
    notificationService : N }.

Arguments mk {N} books members notificationService.
Arguments books {N} l.
Arguments members {N} l.
Arguments notificationService {N} l.

(** [borrowBook] of the source, statement by statement: the two writes come
    before the call of the service, so they stay when the call throws. *)
Definition borrowBook {N : Type} `{INotificationService.t N}
    (memberId bookId : string) (l : Library N)
    : INotificationService.completion bool (Library N) :=
  match members l !! memberId, books l !! bookId with
  | Some member, Some book =>
      if negb (Book.isAvailable book) then INotificationService.Returns false l
      else if negb (Member.canBorrow member) then
        INotificationService.Returns false l
      else
        let books1 := <[bookId := Book.markBorrowed book]> (books l) in
        let members1 :=
          <[memberId := Member.addBorrowedBook bookId member]> (members l) in
        let message := "You have borrowed: " +:+ Book.getTitle book in
        match INotificationService.sendNotification memberId message
                (notificationService l) with
        | INotificationService.Returns _ n =>
            INotificationService.Returns true (mk books1 members1 n)
        | INotificationService.Throws n =>
            INotificationService.Throws (mk books1 members1 n)
        end
  | _, _ => INotificationService.Returns false l
  end.

Definition returnBook {N : Type} `{INotificationService.t N}
    (memberId bookId : string) (l : Library N)
    : INotificationService.completion bool (Library N) :=
  match members l !! memberId, books l !! bookId with
  | Some member, Some book =>
      if negb (Member.hasBorrowedBook bookId member) then
        INotificationService.Returns false l
      else
        let books1 := <[bookId := Book.markReturned book]> (books l) in
        let members1 :=
          <[memberId := snd (Member.removeBorrowedBook bookId member)]>
            (members l) in
        let message := "You have returned: " +:+ Book.getTitle book in
        match INotificationService.sendNotification memberId message
                (notificationService l) with
        | INotificationService.Returns _ n =>
            INotificationService.Returns true (mk books1 members1 n)
        | INotificationService.Throws n =>
            INotificationService.Throws (mk books1 members1 n)
        end
  | _, _ => INotificationService.Returns false l
  end.

End Injected.

(** A library with the recording fake, seen as a library over an
    implementation of the interface. *)
Definition with_fake (l : Library) : Injected.Library FakeNotificationService.t :=
  Injected.mk (books l) (members l) (notificationService l).


(** * Vocabulary of the properties *)

(** What one call does to the library, case by case. *)
Inductive transition (l : Library) : Op → Library → Prop :=
  | transition_addBook id title author :
      transition l (AddBook id title author) (addBook id title author l)
  | transition_registerMember id name :
      transition l (RegisterMember id name) (registerMember id name l)
  | transition_borrow_rejected memberId bookId :
      borrowBook memberId bookId l = (false, l) →
      transition l (BorrowBook memberId bookId) l
  | transition_borrow memberId bookId member book :
      findMember memberId l = Some member →
      findBook bookId l = Some book →
      Book.isAvailable book = true →
      Member.canBorrow member = true →
      transition l (BorrowBook memberId bookId)
        (notify memberId ("You have borrowed: " +:+ Book.getTitle book)
           (store_member memberId (Member.addBorrowedBook bookId member)
              (store_book bookId (Book.markBorrowed book) l)))
  | transition_return_rejected memberId bookId :
      returnBook memberId bookId l = (false, l) →
      transition l (ReturnBook memberId bookId) l
  | transition_return memberId bookId member book :
      findMember memberId l = Some member →
      findBook bookId l = Some book →
      bookId ∈ Member.borrowedBookIds member →
      transition l (ReturnBook memberId bookId)
        (notify memberId ("You have returned: " +:+ Book.getTitle book)
           (store_member memberId (snd (Member.removeBorrowedBook bookId member))
              (store_book bookId (Book.markReturned book) l))).

(** Every record sits under its own id. *)
Definition well_keyed (l : Library) : Prop :=
  (∀ k book, books l !! k = Some book → Book.getId book = k) ∧
  (∀ k member, members l !! k = Some member → Member.getId member = k).

(** Every member was built by [registerMember], hence with the default limit,
    and holds no more books than the limit. *)
Definition within_limit (l : Library) : Prop :=
  ∀ k member, members l !! k = Some member →
    Member.getMaxBooks member = Member.default_maxBooks ∧
    Member.getBorrowedCount member ≤ Member.getMaxBooks member.

(** The seed with the three books and the single member M001. *)
Definition seeded : Library :=
  run [ AddBook "B001" "Clean Code" "Robert Martin";
        AddBook "B002" "Design Patterns" "Gang of Four";
        AddBook "B003" "The Pragmatic Programmer" "Hunt & Thomas";
        RegisterMember "M001" "Alice" ] empty_library.

(** The borrow, refused borrow and return of the fixture tests, run from [l0]. *)
Definition borrow_refuse_return (l0 : Library) : Prop :=
  let r1 := borrowBook "M001" "B001" l0 in
  let r2 := borrowBook "M002" "B001" (snd r1) in
  let r3 := returnBook "M001" "B001" (snd r2) in
  (Member.getMaxBooks <$> findMember "M001" l0) = Some 3 ∧
  (Book.getTitle <$> findBook "B001" l0) = Some "Clean Code" ∧
  fst r1 = true ∧
  (Book.isAvailable <$> findBook "B001" (snd r1)) = Some false ∧
  FakeNotificationService.sentNotifications (notificationService (snd r1)) =
    [("M001", "You have borrowed: Clean Code")] ∧
  fst r2 = false ∧
  FakeNotificationService.sentNotifications (notificationService (snd r2)) =
    FakeNotificationService.sentNotifications (notificationService (snd r1)) ∧
  fst r3 = true ∧
  (Book.isAvailable <$> findBook "B001" (snd r3)) = Some true.

(** Member [memberId] has [bookId] in its borrowed sequence. *)
Definition holds (ms : gmap string Member.t) (memberId bookId : string) : Prop :=
  ∃ member, ms !! memberId = Some member ∧ bookId ∈ Member.borrowedBookIds member.

(** The relation between unavailable books and borrowed ids: an unavailable
    book is in the sequence of exactly one member, and an id in some member's
    sequence is in the sequence of exactly one member and names an unavailable
    book. *)
Definition partial_bijection (l : Library) : Prop :=
  (∀ k book,
     books l !! k = Some book → Book.isAvailable book = false →
     exists! memberId, holds (members l) memberId (Book.getId book)) ∧
  (∀ bookId,
     (∃ memberId, holds (members l) memberId bookId) →
     (exists! memberId, holds (members l) memberId bookId) ∧
     ∃ book, findBook bookId l = Some book ∧ Book.isAvailable book = false).

(** A call that does not replace a record that takes part in a loan:
    [addBook] on the id of an unavailable book and [registerMember] on the id
    of a member that holds books are excluded. *)
Definition keeps_loans (l : Library) (o : Op) : bool :=
  match o with
  | AddBook id _ _ =>
      match findBook id l with
      | Some book => Book.isAvailable book
      | None => true
      end
  | RegisterMember id _ =>
      match findMember id l with
      | Some member => bool_decide (Member.borrowedBookIds member = [])
      | None => true
      end
  | BorrowBook _ _ | ReturnBook _ _ => true
  end.

(** Every call of the sequence keeps the loans of the library it runs on. *)
Fixpoint admissible (ops : list Op) (l : Library) : bool :=
  match ops with
  | [] => true
  | o :: rest => keeps_loans l o && admissible rest (step l o)
  end.

(** The invariant behind [partial_bijection]. *)
Record consistent (l : Library) : Prop := mk_consistent
  { book_keys : ∀ k book, books l !! k = Some book → Book.id book = k;
    held_unavailable : ∀ memberId bookId,
      holds (members l) memberId bookId →
      ∃ book, books l !! bookId = Some book ∧ Book.available book = false;
    unavailable_held : ∀ k book,
      books l !! k = Some book → Book.available book = false →
      ∃ memberId, holds (members l) memberId k;
    one_holder : ∀ m1 m2 bookId,
      holds (members l) m1 bookId → holds (members l) m2 bookId → m1 = m2;
    borrowed_nodup : ∀ k member,
      members l !! k = Some member → NoDup (Member.borrowedBookIds member) }.

(** A book is borrowed and then added again under the same id. *)
Definition replaced_while_borrowed : Library :=
  run [ AddBook "B001" "Clean Code" "Robert Martin";
        RegisterMember "M001" "Alice";
        BorrowBook "M001" "B001";
        AddBook "B001" "Clean Code" "Robert Martin" ] empty_library.

(** The records the fixture stores under M001 and B001. *)
Definition alice : Member.t := Member.mk "M001" "Alice" [] 3.
Definition clean_code : Book.t :=
  Book.mk "B001" "Clean Code" "Robert Martin" true.

(** The fixture after Alice has borrowed B001. *)
Definition alice_holds_B001 : Library := snd (borrowBook "M001" "B001" SetUp).

(** Three loans bring Alice to her limit; a fourth, available book is added. *)
Definition alice_at_limit : Library :=
  run [ BorrowBook "M001" "B001"; BorrowBook "M001" "B002";
        BorrowBook "M001" "B003"; AddBook "B004" "Fourth Book" "Author" ] SetUp.

(** A sequence that re-adds a returned book and registers a member again
    while it holds nothing. *)
Definition loans_kept_example : list Op :=
  [ AddBook "B001" "Clean Code" "Robert Martin";
    AddBook "B002" "Design Patterns" "Gang of Four";
    RegisterMember "M001" "Alice";
    RegisterMember "M002" "Bob";
    BorrowBook "M001" "B001";
    BorrowBook "M002" "B001";
    BorrowBook "M002" "B002";
    ReturnBook "M001" "B001";
    AddBook "B001" "Clean Code" "Robert Martin";
    RegisterMember "M001" "Alice";
    BorrowBook "M001" "B001" ].

(** The number of borrowed ids over all members. *)
Definition total_loans (l : Library) : Z :=
  map_fold (fun _ member total => total + Member.getBorrowedCount member)
           0 (members l).

(** The value a call returns to its caller, for the two calls that return
    one. *)
Definition succeeded (l : Library) (o : Op) : bool :=
  match o with
  | BorrowBook memberId bookId => fst (borrowBook memberId bookId l)
  | ReturnBook memberId bookId => fst (returnBook memberId bookId l)
  | AddBook _ _ _ | RegisterMember _ _ => false
  end.

(** How many calls of a sequence return [true]. *)
Fixpoint successes (ops : list Op) (l : Library) : nat :=
  match ops with
  | [] => 0%nat
  | o :: rest =>
      ((if succeeded l o then 1 else 0) + successes rest (step l o))%nat
  end.

(** What a book adds to the count of [getAvailableBookCount]. *)
Definition availability_weight (book : Book.t) : Z :=
  if Book.isAvailable book then 1 else 0.

(** Available books plus borrowed ids make up the stored books. *)
Definition balanced (l : Library) : Prop :=
  getAvailableBookCount l + total_loans l = Z.of_nat (size (books l)).




(** * The small exercises: absolute_test.cpp, main.cpp, test_fixture.cpp *)

(** The range of [int]. *)
Definition INT_MIN : Z := - 2 ^ 31.
Definition INT_MAX : Z := 2 ^ 31 - 1.

(** The value of a signed [int] expression whose mathematical value is [z]:
    overflow is undefined behaviour and yields no value. *)
Definition int_result (z : Z) : option Z :=
  if (INT_MIN <=? z) && (z <=? INT_MAX) then Some z else None.

Module AbsoluteTest.

(** [if (n < 0) return -n; return n;] *)
Definition absolute (n : Z) : option Z :=
  if n <? 0 then int_result (- n) else Some n.

End AbsoluteTest.

Module Main.

(** [return a * b;] *)
Definition add (a b : Z) : option Z := int_result (a * b).

End Main.

Module Counter.

Record t : Type := mk { count : Z }.

(** [Counter() : count(0)] *)
Definition new : t := {| count := 0 |}.

Definition increment (c : t) : option t :=
  match int_result (count c + 1) with
  | Some v => Some {| count := v |}
  | None => None
  end.

Definition decrement (c : t) : option t :=
  match int_result (count c - 1) with
  | Some v => Some {| count := v |}
  | None => None
  end.

Definition reset (c : t) : t := {| count := 0 |}.
Definition getCount (c : t) : Z := count c.
Definition setCount (value : Z) (c : t) : t := {| count := value |}.

End Counter.

(** * Properties *)

(** ** The two loops of [Member] *)

Lemma scan_true_iff (bookId : string) (ids : list string) :
  Member.scan bookId ids = true ↔ bookId ∈ ids.
Proof.
  induction ids as [|x rest IH]; simpl.
  - split; [discriminate | intros H; inversion H].
  - destruct (String.eqb_spec x bookId) as [->|Hne].
    + split; [intros _; left | reflexivity].
    + rewrite IH. split; [intros H; by right |].
      intros H. inversion H; subst; [congruence | assumption].
Qed.

Lemma scan_false_iff (bookId : string) (ids : list string) :
  Member.scan bookId ids = false ↔ bookId ∉ ids.
Proof.
  rewrite <- scan_true_iff. destruct (Member.scan bookId ids); split; congruence.
Qed.

(** [erase_first] removes exactly the first occurrence. *)
Lemma erase_first_present (bookId : string) (ids : list string) :
  bookId ∈ ids →
  ∃ before after : list string,
    ids = before ++ bookId :: after ∧ (bookId ∉ before) ∧
    Member.erase_first bookId ids = (true, before ++ after).
Proof.
  induction ids as [|x rest IH]; intros Hin; [inversion Hin|].
  simpl. destruct (String.eqb_spec x bookId) as [->|Hne].
  - exists [], rest. repeat split. intros H; inversion H.
  - assert (Hrest : bookId ∈ rest) by (inversion Hin; subst; congruence).
    destruct (IH Hrest) as (before & after & -> & Hnot & ->).
    exists (x :: before), after. repeat split.
    intros H. inversion H; subst; [congruence | contradiction].
Qed.

Lemma erase_first_absent (bookId : string) (ids : list string) :
  bookId ∉ ids → Member.erase_first bookId ids = (false, ids).
Proof.
  induction ids as [|x rest IH]; intros Hnot; [reflexivity|].
  simpl. destruct (String.eqb_spec x bookId) as [->|Hne].
  - exfalso. apply Hnot. left.
  - rewrite IH; [reflexivity|]. intros H. apply Hnot. by right.
Qed.

Lemma removeBorrowedBook_ids (bookId : string) (m : Member.t) :
  Member.borrowedBookIds (snd (Member.removeBorrowedBook bookId m)) =
  snd (Member.erase_first bookId (Member.borrowedBookIds m)).
Proof.
  unfold Member.removeBorrowedBook.
  destruct (Member.erase_first bookId (Member.borrowedBookIds m)); reflexivity.
Qed.

Lemma removeBorrowedBook_fields (bookId : string) (m : Member.t) :
  Member.id (snd (Member.removeBorrowedBook bookId m)) = Member.id m ∧
  Member.name (snd (Member.removeBorrowedBook bookId m)) = Member.name m ∧
  Member.maxBooks (snd (Member.removeBorrowedBook bookId m)) = Member.maxBooks m.
Proof.
  unfold Member.removeBorrowedBook.
  destruct (Member.erase_first bookId (Member.borrowedBookIds m)); by simpl.
Qed.

(** For a limit that is a non-negative [int], the conversion to [size_t] is
    the identity and [canBorrow] is the comparison of the two numbers. *)
Lemma canBorrow_nonneg (m : Member.t) :
  0 ≤ Member.maxBooks m < 2 ^ 31 →
  Member.canBorrow m = (Member.size m <? Member.maxBooks m).
Proof.
  intros H. unfold Member.canBorrow, Member.to_size_t.
  rewrite Z.mod_small; [reflexivity | lia].
Qed.

(** ** The successful and the rejected paths of [borrowBook], [returnBook] *)

Lemma borrowBook_success (l : Library) (memberId bookId : string)
    (member : Member.t) (book : Book.t) :
  findMember memberId l = Some member →
  findBook bookId l = Some book →
  Book.isAvailable book = true →
  Member.canBorrow member = true →
  borrowBook memberId bookId l =
  (true,
   {| books := <[bookId := Book.markBorrowed book]> (books l);
      members := <[memberId := Member.addBorrowedBook bookId member]> (members l);
      notificationService :=
        FakeNotificationService.sendNotification memberId
          ("You have borrowed: " +:+ Book.getTitle book)
          (notificationService l) |}).
Proof.
  intros Hm Hb Ha Hc. unfold borrowBook. rewrite Hm, Hb, Ha, Hc. reflexivity.
Qed.

Lemma borrowBook_true_inv (l l' : Library) (memberId bookId : string) :
  borrowBook memberId bookId l = (true, l') →
  ∃ member book,
    findMember memberId l = Some member ∧ findBook bookId l = Some book ∧
    Book.isAvailable book = true ∧ Member.canBorrow member = true.
Proof.
  unfold borrowBook.
  destruct (findMember memberId l) as [member|]; [|discriminate].
  destruct (findBook bookId l) as [book|]; [|discriminate].
  destruct (Book.isAvailable book) eqn:Ha; [|discriminate].
  destruct (Member.canBorrow member) eqn:Hc; [|discriminate].
  intros _. by exists member, book.
Qed.

Lemma borrowBook_cases (l : Library) (memberId bookId : string) :
  borrowBook memberId bookId l = (false, l) ∨
  ∃ l', borrowBook memberId bookId l = (true, l').
Proof.
  unfold borrowBook.
  destruct (findMember memberId l) as [member|]; [|by left].
  destruct (findBook bookId l) as [book|]; [|by left].
  destruct (Book.isAvailable book); [|by left].
  destruct (Member.canBorrow member); [|by left].
  right. eexists. reflexivity.
Qed.

Lemma returnBook_success (l : Library) (memberId bookId : string)
    (member : Member.t) (book : Book.t) :
  findMember memberId l = Some member →
  findBook bookId l = Some book →
  Member.hasBorrowedBook bookId member = true →
  returnBook memberId bookId l =
  (true,
   {| books := <[bookId := Book.markReturned book]> (books l);
      members :=
        <[memberId := snd (Member.removeBorrowedBook bookId member)]> (members l);
      notificationService :=
        FakeNotificationService.sendNotification memberId
          ("You have returned: " +:+ Book.getTitle book)
          (notificationService l) |}).
Proof.
  intros Hm Hb Hh. unfold returnBook. rewrite Hm, Hb, Hh. reflexivity.
Qed.

Lemma returnBook_true_inv (l l' : Library) (memberId bookId : string) :
  returnBook memberId bookId l = (true, l') →
  ∃ member book,
    findMember memberId l = Some member ∧ findBook bookId l = Some book ∧
    Member.hasBorrowedBook bookId member = true.
Proof.
  unfold returnBook.
  destruct (findMember memberId l) as [member|]; [|discriminate].
  destruct (findBook bookId l) as [book|]; [|discriminate].
  destruct (Member.hasBorrowedBook bookId member) eqn:Hh; [|discriminate].
  intros _. by exists member, book.
Qed.

Lemma returnBook_cases (l : Library) (memberId bookId : string) :
  returnBook memberId bookId l = (false, l) ∨
  ∃ l', returnBook memberId bookId l = (true, l').
Proof.
  unfold returnBook.
  destruct (findMember memberId l) as [member|]; [|by left].
  destruct (findBook bookId l) as [book|]; [|by left].
  destruct (Member.hasBorrowedBook bookId member); [|by left].
  right. eexists. reflexivity.
Qed.

(** ** borrowBook *)

(** C1.  [borrowBook memberId bookId] returns [false] and leaves the whole
    library (every book, every member, the notifier's record) as it was when
    the member is absent, the book is absent, the book is unavailable, or the
    member is at capacity ([canBorrow] answers [false], which for a limit that
    is a non-negative [int] means that the member holds at least [maxBooks]
    books).  In every other case
    it returns [true], the book found under [bookId] is the old one with its
    flag cleared, the member found under [memberId] is the old one with
    [bookId] appended to its borrowed sequence, and the notifier has received
    exactly one more call, for [memberId], with the message
    "You have borrowed: " followed by the title. *)
Theorem borrowBook_spec (l : Library) (memberId bookId : string) :
  ((findMember memberId l = None ∨
    findBook bookId l = None ∨
    (∃ book, findBook bookId l = Some book ∧ Book.isAvailable book = false) ∨
    (∃ member, findMember memberId l = Some member ∧
               Member.canBorrow member = false)) →
   borrowBook memberId bookId l = (false, l)) ∧
  (∀ member book,
     findMember memberId l = Some member →
     findBook bookId l = Some book →
     Book.isAvailable book = true →
     Member.canBorrow member = true →
     ∃ l', borrowBook memberId bookId l = (true, l') ∧
       findBook bookId l' =
         Some (Book.mk (Book.id book) (Book.title book) (Book.author book) false) ∧
       findMember memberId l' =
         Some (Member.mk (Member.id member) (Member.name member)
                 (Member.borrowedBookIds member ++ [bookId])
                 (Member.maxBooks member)) ∧
       FakeNotificationService.sentNotifications (notificationService l') =
         FakeNotificationService.sentNotifications (notificationService l) ++
         [(memberId, "You have borrowed: " +:+ Book.title book)] ∧
       FakeNotificationService.getNotificationCount (notificationService l') =
         FakeNotificationService.getNotificationCount (notificationService l) + 1) ∧
  (∀ member,
     0 ≤ Member.getMaxBooks member < 2 ^ 31 →
     (Member.canBorrow member = false ↔
      Member.getMaxBooks member ≤ Member.getBorrowedCount member)).
Proof.
  split; [|split].
  - unfold borrowBook.
    intros [Hm | [Hb | [(book & Hb & Ha) | (member & Hm & Hc)]]].
    + by rewrite Hm.
    + rewrite Hb. by destruct (findMember memberId l).
    + rewrite Hb, Ha. by destruct (findMember memberId l).
    + rewrite Hm, Hc. destruct (findBook bookId l) as [book|]; [|done].
      by destruct (Book.isAvailable book).
  - intros member book Hm Hb Ha Hc.
    eexists. split; [by apply borrowBook_success|].
    unfold findBook, findMember, FakeNotificationService.getNotificationCount.
    simpl. rewrite !lookup_insert_eq, length_app. simpl.
    repeat split. lia.
  - intros member Hrange. rewrite (canBorrow_nonneg member Hrange).
    apply Z.ltb_ge.
Qed.

(** ** returnBook *)

(** C2.  [returnBook memberId bookId] returns [false] and leaves the whole
    library as it was when the member is absent, the book is absent, or
    [bookId] is not in that member's borrowed sequence, whoever else holds
    the book.  In every other case it returns [true], the book found under
    [bookId] is the old one with its flag set, the first occurrence of
    [bookId] is gone from the member's borrowed sequence, and the notifier has
    received exactly one more call, for [memberId], with the message
    "You have returned: " followed by the title. *)
Theorem returnBook_spec (l : Library) (memberId bookId : string) :
  ((findMember memberId l = None ∨
    findBook bookId l = None ∨
    (∃ member, findMember memberId l = Some member ∧
               bookId ∉ Member.borrowedBookIds member)) →
   returnBook memberId bookId l = (false, l)) ∧
  (∀ member other holder,
     findMember memberId l = Some member →
     bookId ∉ Member.borrowedBookIds member →
     findMember other l = Some holder →
     bookId ∈ Member.borrowedBookIds holder →
     returnBook memberId bookId l = (false, l)) ∧
  (∀ member book,
     findMember memberId l = Some member →
     findBook bookId l = Some book →
     bookId ∈ Member.borrowedBookIds member →
     ∃ l' before after,
       returnBook memberId bookId l = (true, l') ∧
       findBook bookId l' =
         Some (Book.mk (Book.id book) (Book.title book) (Book.author book) true) ∧
       Member.borrowedBookIds member = before ++ bookId :: after ∧
       (bookId ∉ before) ∧
       findMember memberId l' =
         Some (Member.mk (Member.id member) (Member.name member)
                 (before ++ after) (Member.maxBooks member)) ∧
       FakeNotificationService.sentNotifications (notificationService l') =
         FakeNotificationService.sentNotifications (notificationService l) ++
         [(memberId, "You have returned: " +:+ Book.title book)] ∧
       FakeNotificationService.getNotificationCount (notificationService l') =
         FakeNotificationService.getNotificationCount (notificationService l) + 1).
Proof.
  assert (Hrej : ∀ member, findMember memberId l = Some member →
                   bookId ∉ Member.borrowedBookIds member →
                   returnBook memberId bookId l = (false, l)).
  { intros member Hm Hnot. unfold returnBook. rewrite Hm.
    destruct (findBook bookId l); [|done].
    unfold Member.hasBorrowedBook.
    apply scan_false_iff in Hnot. by rewrite Hnot. }
  split; [|split].
  - intros [Hm | [Hb | (member & Hm & Hnot)]].
    + unfold returnBook. by rewrite Hm.
    + unfold returnBook. rewrite Hb. by destruct (findMember memberId l).
    + by apply (Hrej member).
  - intros member other holder Hm Hnot _ _. by apply (Hrej member).
  - intros member book Hm Hb Hin.
    destruct (erase_first_present bookId _ Hin) as (before & after & Hids & Hnot & He).
    eexists _, before, after.
    split.
    { apply returnBook_success; [done | done |].
      unfold Member.hasBorrowedBook. by apply scan_true_iff. }
    unfold findBook, findMember, FakeNotificationService.getNotificationCount.
    simpl. rewrite !lookup_insert_eq, length_app. simpl.
    unfold Member.removeBorrowedBook. rewrite He. simpl.
    repeat split; [done | done | lia].
Qed.

(** ** Atomicity *)

(** With the recording fake the general definitions are the ones above. *)
Lemma borrowBook_with_fake (l : Library) (memberId bookId : string) :
  Injected.borrowBook memberId bookId (with_fake l) =
  INotificationService.Returns (fst (borrowBook memberId bookId l))
    (with_fake (snd (borrowBook memberId bookId l))).
Proof.
  unfold Injected.borrowBook, borrowBook, findMember, findBook, with_fake. simpl.
  destruct (members l !! memberId) as [member|]; [|by destruct l].
  destruct (books l !! bookId) as [book|]; [|by destruct l].
  destruct (Book.isAvailable book); [|by destruct l].
  destruct (Member.canBorrow member); [|by destruct l].
  reflexivity.
Qed.

Lemma returnBook_with_fake (l : Library) (memberId bookId : string) :
  Injected.returnBook memberId bookId (with_fake l) =
  INotificationService.Returns (fst (returnBook memberId bookId l))
    (with_fake (snd (returnBook memberId bookId l))).
Proof.
  unfold Injected.returnBook, returnBook, findMember, findBook, with_fake. simpl.
  destruct (members l !! memberId) as [member|]; [|by destruct l].
  destruct (books l !! bookId) as [book|]; [|by destruct l].
  destruct (Member.hasBorrowedBook bookId member); [|by destruct l].
  reflexivity.
Qed.




(** ** addBook and the lookups *)

(** C6.  After [addBook id title author], [findBook id] finds a book with
    that id, title and author that is available, whatever was stored under
    [id] before (nothing, an available book or an unavailable one). *)
Theorem addBook_findBook (l : Library) (id title author : string) :
  findBook id (addBook id title author l) =
  Some {| Book.id := id; Book.title := title; Book.author := author;
          Book.available := true |}.
Proof. unfold findBook, addBook. simpl. apply lookup_insert_eq. Qed.

Lemma addBook_replaces_unavailable :
  let l := snd (borrowBook "M001" "B001"
                  (registerMember "M001" "Alice"
                     (addBook "B001" "Clean Code" "Robert Martin" empty_library))) in
  (Book.isAvailable <$> findBook "B001" l) = Some false ∧
  findBook "B001" (addBook "B001" "Refactoring" "Martin Fowler" l) =
  Some (Book.mk "B001" "Refactoring" "Martin Fowler" true).
Proof. split; vm_compute; reflexivity. Qed.

(** ** Frame *)

(** C9.  A successful [borrowBook] or [returnBook] leaves every book stored
    under another id and every member stored under another id untouched,
    keeps id, title and author of the book it writes and id, name and limit of
    the member it writes, and adds one record at the end of the notifier's
    record. *)
Theorem borrow_return_frame (l l' : Library) (memberId bookId : string) :
  borrowBook memberId bookId l = (true, l') ∨
  returnBook memberId bookId l = (true, l') →
  (∀ k, k ≠ bookId → findBook k l' = findBook k l) ∧
  (∀ k, k ≠ memberId → findMember k l' = findMember k l) ∧
  (∃ book book',
     findBook bookId l = Some book ∧ findBook bookId l' = Some book' ∧
     Book.id book' = Book.id book ∧ Book.title book' = Book.title book ∧
     Book.author book' = Book.author book) ∧
  (∃ member member',
     findMember memberId l = Some member ∧
     findMember memberId l' = Some member' ∧
     Member.id member' = Member.id member ∧
     Member.name member' = Member.name member ∧
     Member.maxBooks member' = Member.maxBooks member) ∧
  (∃ message,
     FakeNotificationService.sentNotifications (notificationService l') =
     FakeNotificationService.sentNotifications (notificationService l) ++
     [(memberId, message)]).
Proof.
  intros [H | H].
  - destruct (borrowBook_true_inv _ _ _ _ H) as (member & book & Hm & Hb & Ha & Hc).
    rewrite (borrowBook_success _ _ _ _ _ Hm Hb Ha Hc) in H.
    injection H as <-. unfold findBook, findMember in *. simpl.
    split; [intros k Hk; by apply lookup_insert_ne|].
    split; [intros k Hk; by apply lookup_insert_ne|].
    split; [exists book, (Book.markBorrowed book); by rewrite lookup_insert_eq|].
    split; [|by eexists].
    exists member, (Member.addBorrowedBook bookId member).
    by rewrite lookup_insert_eq.
  - destruct (returnBook_true_inv _ _ _ _ H) as (member & book & Hm & Hb & Hh).
    rewrite (returnBook_success _ _ _ _ _ Hm Hb Hh) in H.
    injection H as <-. unfold findBook, findMember in *. simpl.
    split; [intros k Hk; by apply lookup_insert_ne|].
    split; [intros k Hk; by apply lookup_insert_ne|].
    split; [exists book, (Book.markReturned book); by rewrite lookup_insert_eq|].
    split; [|by eexists].
    exists member, (snd (Member.removeBorrowedBook bookId member)).
    rewrite lookup_insert_eq.
    destruct (removeBorrowedBook_fields bookId member) as (? & ? & ?). done.
Qed.

(** ** returnBook never looks at the availability flag *)

(** C10.  When the member exists, the book exists and [bookId] is in the
    member's borrowed sequence, [returnBook] returns [true] and records a
    notification, whatever the value of the book's flag: the result is the
    same for the book and for the book with its flag inverted. *)
Theorem returnBook_ignores_availability (l : Library)
    (memberId bookId : string) (member : Member.t) (book : Book.t) :
  findMember memberId l = Some member →
  findBook bookId l = Some book →
  bookId ∈ Member.borrowedBookIds member →
  (∃ l', returnBook memberId bookId l = (true, l') ∧
     FakeNotificationService.sentNotifications (notificationService l') =
     FakeNotificationService.sentNotifications (notificationService l) ++
     [(memberId, "You have returned: " +:+ Book.title book)]) ∧
  (∀ flag : bool,
     returnBook memberId bookId
       (store_book bookId
          (Book.mk (Book.id book) (Book.title book) (Book.author book) flag) l)
     = returnBook memberId bookId l).
Proof.
  intros Hm Hb Hin.
  assert (Hh : Member.hasBorrowedBook bookId member = true)
    by (by apply scan_true_iff).
  split.
  - eexists. split; [by apply returnBook_success|]. reflexivity.
  - intros flag.
    rewrite (returnBook_success l _ _ member book) by done.
    rewrite (returnBook_success _ memberId bookId member
               (Book.mk (Book.id book) (Book.title book) (Book.author book) flag));
      [|done|unfold findBook, store_book; simpl; apply lookup_insert_eq|done].
    unfold store_book. simpl. by rewrite insert_insert_eq.
Qed.

(** ** The transitions of a library *)

Lemma step_transition (l : Library) (o : Op) : transition l o (step l o).
Proof.
  destruct o as [id title author | id name | memberId bookId | memberId bookId];
    simpl.
  - constructor.
  - constructor.
  - destruct (borrowBook_cases l memberId bookId) as [H | [l' H]].
    + rewrite H. by constructor.
    + destruct (borrowBook_true_inv _ _ _ _ H) as (member & book & Hm & Hb & Ha & Hc).
      rewrite (borrowBook_success _ _ _ _ _ Hm Hb Ha Hc). simpl.
      by apply (transition_borrow l memberId bookId member book).
  - destruct (returnBook_cases l memberId bookId) as [H | [l' H]].
    + rewrite H. by constructor.
    + destruct (returnBook_true_inv _ _ _ _ H) as (member & book & Hm & Hb & Hh).
      rewrite (returnBook_success _ _ _ _ _ Hm Hb Hh). simpl.
      apply (transition_return l memberId bookId member book); [done | done |].
      by apply scan_true_iff.
Qed.

Lemma run_snoc (ops : list Op) (o : Op) (l : Library) :
  run (ops ++ [o]) l = step (run ops l) o.
Proof. unfold run. by rewrite foldl_app. Qed.

Lemma reachable_empty : reachable empty_library.
Proof. by exists []. Qed.

Lemma reachable_step (l : Library) (o : Op) : reachable l → reachable (step l o).
Proof. intros [ops <-]. exists (ops ++ [o]). apply run_snoc. Qed.

(** Induction over the calls that built a reachable library. *)
Lemma reachable_induction (P : Library → Prop) :
  P empty_library →
  (∀ l o l', reachable l → P l → transition l o l' → P l') →
  ∀ l, reachable l → P l.
Proof.
  intros Hinit Hstep l [ops <-].
  induction ops as [|o ops IH] using rev_ind; [exact Hinit|].
  rewrite run_snoc.
  apply (Hstep (run ops empty_library) o); [by exists ops | exact IH |].
  apply step_transition.
Qed.

Lemma reachable_well_keyed (l : Library) : reachable l → well_keyed l.
Proof.
  intros Hr. induction Hr as [|l o l' _ [IHb IHm] Ht] using reachable_induction.
  - split; intros k x H; simpl in H; by rewrite lookup_empty in H.
  - destruct Ht as [id title author | id name | | memberId bookId member book Hm Hb _ _
                   | | memberId bookId member book Hm Hb _]; simpl.
    + split; [|exact IHm]. intros k b. simpl.
      destruct (decide (id = k)) as [->|Hne].
      * rewrite lookup_insert_eq. by intros [= <-].
      * rewrite lookup_insert_ne by done. apply IHb.
    + split; [exact IHb|]. intros k m. simpl.
      destruct (decide (id = k)) as [->|Hne].
      * rewrite lookup_insert_eq. by intros [= <-].
      * rewrite lookup_insert_ne by done. apply IHm.
    + by split.
    + split; intros k x; simpl.
      * destruct (decide (bookId = k)) as [->|Hne].
        -- rewrite lookup_insert_eq. intros [= <-]. by apply (IHb k book).
        -- rewrite lookup_insert_ne by done. apply IHb.
      * destruct (decide (memberId = k)) as [->|Hne].
        -- rewrite lookup_insert_eq. intros [= <-]. by apply (IHm k member).
        -- rewrite lookup_insert_ne by done. apply IHm.
    + by split.
    + split; intros k x; simpl.
      * destruct (decide (bookId = k)) as [->|Hne].
        -- rewrite lookup_insert_eq. intros [= <-]. by apply (IHb k book).
        -- rewrite lookup_insert_ne by done. apply IHb.
      * destruct (decide (memberId = k)) as [->|Hne].
        -- rewrite lookup_insert_eq. intros [= <-].
           unfold Member.getId.
           destruct (removeBorrowedBook_fields bookId member) as (-> & _).
           by apply (IHm k member).
        -- rewrite lookup_insert_ne by done. apply IHm.
Qed.

(** C7.  [findBook id] answers [None] exactly when nothing is stored under
    [id] in the book map, and otherwise answers the record stored there; the
    same holds of [findMember] and the member map.  Both are total functions.
    In a reachable library the record stored under an id is the record that
    carries this id, so [None] is also the answer exactly when no stored
    record carries [id]. *)
Theorem find_absent_or_stored (l : Library) (id : string) :
  (findBook id l = None ↔ id ∉ dom (books l)) ∧
  (∀ book, findBook id l = Some book ↔ (id, book) ∈ map_to_list (books l)) ∧
  (findMember id l = None ↔ id ∉ dom (members l)) ∧
  (∀ member,
     findMember id l = Some member ↔ (id, member) ∈ map_to_list (members l)) ∧
  (reachable l →
     (findBook id l = None ↔
      ∀ k book, (k, book) ∈ map_to_list (books l) → Book.getId book ≠ id) ∧
     (findMember id l = None ↔
      ∀ k member,
        (k, member) ∈ map_to_list (members l) → Member.getId member ≠ id)).
Proof.
  unfold findBook, findMember.
  split; [by rewrite not_elem_of_dom|].
  split; [intros book; by rewrite elem_of_map_to_list|].
  split; [by rewrite not_elem_of_dom|].
  split; [intros member; by rewrite elem_of_map_to_list|].
  intros Hr. destruct (reachable_well_keyed l Hr) as [Hb Hm]. split.
  - split.
    + intros Hnone k book Hin Hid. apply elem_of_map_to_list in Hin.
      rewrite <- (Hb _ _ Hin), Hid in Hin. congruence.
    + intros Hall. destruct (books l !! id) as [book|] eqn:E; [|done].
      exfalso. apply (Hall id book); [by apply elem_of_map_to_list | by apply Hb].
  - split.
    + intros Hnone k member Hin Hid. apply elem_of_map_to_list in Hin.
      rewrite <- (Hm _ _ Hin), Hid in Hin. congruence.
    + intros Hall. destruct (members l !! id) as [member|] eqn:E; [|done].
      exfalso. apply (Hall id member); [by apply elem_of_map_to_list | by apply Hm].
Qed.

(** ** Capacity *)

Lemma canBorrow_true_room (member : Member.t) :
  Member.maxBooks member = Member.default_maxBooks →
  Member.canBorrow member = true →
  Member.size member + 1 ≤ Member.maxBooks member.
Proof.
  intros Hmax Hc.
  rewrite canBorrow_nonneg in Hc by (rewrite Hmax; by vm_compute).
  apply Z.ltb_lt in Hc. lia.
Qed.

Lemma size_removeBorrowedBook (bookId : string) (member : Member.t) :
  Member.size (snd (Member.removeBorrowedBook bookId member)) ≤ Member.size member.
Proof.
  unfold Member.size. rewrite removeBorrowedBook_ids.
  destruct (decide (bookId ∈ Member.borrowedBookIds member)) as [Hin|Hnot].
  - destruct (erase_first_present _ _ Hin) as (before & after & -> & _ & ->).
    simpl. rewrite !length_app. simpl. lia.
  - rewrite (erase_first_absent _ _ Hnot). simpl. lia.
Qed.

Lemma reachable_within_limit (l : Library) : reachable l → within_limit l.
Proof.
  intros Hr. induction Hr as [|l o l' _ IH Ht] using reachable_induction.
  - intros k member H. simpl in H. by rewrite lookup_empty in H.
  - destruct Ht as [id title author | id name | | memberId bookId member book Hm Hb _ Hc
                   | | memberId bookId member book Hm Hb _]; try exact IH.
    + intros k member. simpl.
      destruct (decide (id = k)) as [->|Hne].
      * rewrite lookup_insert_eq. intros [= <-]. by vm_compute.
      * rewrite lookup_insert_ne by done. apply IH.
    + intros k m. simpl.
      destruct (decide (memberId = k)) as [->|Hne].
      * rewrite lookup_insert_eq. intros [= <-].
        destruct (IH _ _ Hm) as [Hmax _]. split; [exact Hmax|].
        pose proof (canBorrow_true_room member Hmax Hc) as Hroom.
        unfold Member.getBorrowedCount, Member.getMaxBooks, Member.size in *.
        simpl. rewrite length_app. simpl. lia.
      * rewrite lookup_insert_ne by done. apply IH.
    + intros k m. simpl.
      destruct (decide (memberId = k)) as [->|Hne].
      * rewrite lookup_insert_eq. intros [= <-].
        destruct (IH _ _ Hm) as [Hmax Hle].
        destruct (removeBorrowedBook_fields bookId member) as (_ & _ & Hsame).
        unfold Member.getBorrowedCount, Member.getMaxBooks in *.
        rewrite Hsame. split; [exact Hmax|].
        pose proof (size_removeBorrowedBook bookId member). lia.
      * rewrite lookup_insert_ne by done. apply IH.
Qed.

(** C5.  In a reachable library every member holds at most [maxBooks] books,
    and a member that holds exactly [maxBooks] books is refused every
    [borrowBook], for any book id, available or not; the refused call changes
    nothing. *)
Theorem capacity_respected (l : Library) :
  reachable l →
  (∀ memberId member,
     findMember memberId l = Some member →
     Z.of_nat (length (Member.borrowedBookIds member)) ≤ Member.maxBooks member) ∧
  (∀ memberId member bookId,
     findMember memberId l = Some member →
     Z.of_nat (length (Member.borrowedBookIds member)) = Member.maxBooks member →
     borrowBook memberId bookId l = (false, l)).
Proof.
  intros Hr. pose proof (reachable_within_limit l Hr) as Hlim. split.
  - intros memberId member Hm. by destruct (Hlim _ _ Hm).
  - intros memberId member bookId Hm Hfull.
    destruct (Hlim _ _ Hm) as [Hmax _].
    assert (Hc : Member.canBorrow member = false).
    { rewrite canBorrow_nonneg by (unfold Member.getMaxBooks in Hmax; rewrite Hmax; by vm_compute).
      apply Z.ltb_ge. unfold Member.size. lia. }
    unfold borrowBook. rewrite Hm, Hc.
    destruct (findBook bookId l) as [book|]; [|done].
    by destruct (Book.isAvailable book).
Qed.

(** ** The scenario of the test fixture *)

(** C8.  Starting from the three books B001 "Clean Code", B002, B003 and the
    member M001 with limit 3 (with or without the second member M002 of the
    fixture): M001 borrows B001 successfully, B001 becomes unavailable and the
    notifier's record is exactly ("M001", "You have borrowed: Clean Code");
    M002 is then refused B001 and nothing is recorded; M001 then returns B001
    successfully and B001 is available again. *)
Theorem scenario_borrow_refuse_return :
  borrow_refuse_return seeded ∧ borrow_refuse_return SetUp.
Proof. split; vm_compute; repeat split. Qed.

(** ** Borrowed books and unavailable books *)

Lemma holds_insert (ms : gmap string Member.t) (k : string) (m : Member.t)
    (memberId bookId : string) :
  holds (<[k := m]> ms) memberId bookId ↔
  (memberId = k ∧ bookId ∈ Member.borrowedBookIds m) ∨
  (memberId ≠ k ∧ holds ms memberId bookId).
Proof.
  unfold holds. destruct (decide (memberId = k)) as [->|Hne].
  - rewrite lookup_insert_eq. split.
    + intros (member & [= <-] & Hin). by left.
    + intros [[_ Hin] | [Hne _]]; [by exists m | done].
  - rewrite lookup_insert_ne by done. split.
    + intros H. by right.
    + intros [[Heq _] | [_ H]]; [done | exact H].
Qed.

Lemma erase_first_elem (bookId x : string) (ids : list string) :
  NoDup ids →
  x ∈ snd (Member.erase_first bookId ids) ↔ x ∈ ids ∧ x ≠ bookId.
Proof.
  induction ids as [|y rest IH]; intros Hnd; simpl.
  - split; [intros H; inversion H | intros [H _]; inversion H].
  - apply NoDup_cons in Hnd as [Hy Hnd].
    destruct (String.eqb_spec y bookId) as [->|Hne]; simpl.
    + rewrite elem_of_cons. split.
      * intros H. split; [by right | intros ->; contradiction].
      * intros [[->|H] Hx]; [done | exact H].
    + destruct (Member.erase_first bookId rest) as [found rest'] eqn:E.
      simpl in *. rewrite !elem_of_cons, (IH Hnd). split.
      * intros [->|[H Hx]]; [by split; [left|] | by split; [right|]].
      * intros [[->|H] Hx]; [by left | by right].
Qed.

Lemma erase_first_NoDup (bookId : string) (ids : list string) :
  NoDup ids → NoDup (snd (Member.erase_first bookId ids)).
Proof.
  induction ids as [|y rest IH]; intros Hnd; simpl; [constructor|].
  pose proof Hnd as Hnd'. apply NoDup_cons in Hnd as [Hy Hnd].
  destruct (String.eqb_spec y bookId) as [->|Hne]; simpl; [exact Hnd|].
  pose proof (erase_first_elem bookId y rest Hnd) as Helem.
  destruct (Member.erase_first bookId rest) as [found rest'] eqn:E.
  simpl in *. apply NoDup_cons. split; [|by apply IH].
  rewrite Helem. intros [H _]. contradiction.
Qed.

Lemma consistent_empty : consistent empty_library.
Proof.
  split; simpl.
  - intros k book H. by rewrite lookup_empty in H.
  - intros memberId bookId (member & H & _). by rewrite lookup_empty in H.
  - intros k book H. by rewrite lookup_empty in H.
  - intros m1 m2 bookId (member & H & _). by rewrite lookup_empty in H.
  - intros k member H. by rewrite lookup_empty in H.
Qed.

Lemma consistent_addBook (l : Library) (id title author : string) :
  consistent l →
  keeps_loans l (AddBook id title author) = true →
  consistent (addBook id title author l).
Proof.
  intros [Hkeys Hheld Hunav Hone Hnd] Hguard. simpl in Hguard.
  unfold findBook in Hguard. split; simpl.
  - intros k book. destruct (decide (id = k)) as [->|Hne].
    + rewrite lookup_insert_eq. by intros [= <-].
    + rewrite lookup_insert_ne by done. apply Hkeys.
  - intros memberId bookId Hh.
    destruct (Hheld _ _ Hh) as (book & Hb & Ha).
    destruct (decide (id = bookId)) as [->|Hne].
    + rewrite Hb in Hguard. unfold Book.isAvailable in Hguard. congruence.
    + exists book. by rewrite lookup_insert_ne.
  - intros k book. destruct (decide (id = k)) as [->|Hne].
    + rewrite lookup_insert_eq. intros [= <-]. discriminate.
    + rewrite lookup_insert_ne by done. apply Hunav.
  - exact Hone.
  - exact Hnd.
Qed.

Lemma consistent_registerMember (l : Library) (id name : string) :
  consistent l →
  keeps_loans l (RegisterMember id name) = true →
  consistent (registerMember id name l).
Proof.
  intros [Hkeys Hheld Hunav Hone Hnd] Hguard. simpl in Hguard.
  unfold findMember in Hguard.
  assert (Hold : ∀ memberId bookId,
            holds (<[id := Member.new id name Member.default_maxBooks]> (members l))
                  memberId bookId ↔
            memberId ≠ id ∧ holds (members l) memberId bookId).
  { intros memberId bookId. rewrite holds_insert. simpl. split.
    - intros [[_ H] | H]; [inversion H | exact H].
    - intros H. by right. }
  split; simpl.
  - exact Hkeys.
  - intros memberId bookId Hh. apply Hold in Hh as [_ Hh]. by apply (Hheld memberId).
  - intros k book Hb Ha. destruct (Hunav _ _ Hb Ha) as [memberId Hh].
    exists memberId. apply Hold. split; [|exact Hh].
    intros ->. destruct Hh as (member & Hm & Hin).
    rewrite Hm in Hguard. apply bool_decide_eq_true in Hguard.
    rewrite Hguard in Hin. inversion Hin.
  - intros m1 m2 bookId H1 H2. apply Hold in H1 as [_ H1], H2 as [_ H2].
    by apply (Hone m1 m2 bookId).
  - intros k member. destruct (decide (id = k)) as [->|Hne].
    + rewrite lookup_insert_eq. intros [= <-]. simpl. constructor.
    + rewrite lookup_insert_ne by done. apply Hnd.
Qed.

Lemma consistent_borrow (l : Library) (memberId bookId : string)
    (member : Member.t) (book : Book.t) :
  consistent l →
  findMember memberId l = Some member →
  findBook bookId l = Some book →
  Book.isAvailable book = true →
  consistent
    (notify memberId ("You have borrowed: " +:+ Book.getTitle book)
       (store_member memberId (Member.addBorrowedBook bookId member)
          (store_book bookId (Book.markBorrowed book) l))).
Proof.
  intros [Hkeys Hheld Hunav Hone Hnd] Hm Hb Ha.
  unfold findMember, findBook, Book.isAvailable in *.
  assert (Hfree : ∀ k, ¬ holds (members l) k bookId).
  { intros k Hh. destruct (Hheld _ _ Hh) as (book' & Hb' & Ha'). congruence. }
  assert (Hnew : ∀ k b,
            holds (<[memberId := Member.addBorrowedBook bookId member]> (members l)) k b ↔
            (k = memberId ∧ b = bookId) ∨ holds (members l) k b).
  { intros k b. rewrite holds_insert. simpl. rewrite elem_of_app, list_elem_of_singleton.
    split.
    - intros [[-> [Hin | ->]] | [_ Hh]]; [right; by exists member | by left | by right].
    - intros [[-> ->] | Hh]; [left; split; [done | by right]|].
      destruct (decide (k = memberId)) as [->|Hne]; [|by right].
      left. split; [done|]. left.
      destruct Hh as (member' & Hm' & Hin). congruence. }
  split; simpl.
  - intros k book'. destruct (decide (bookId = k)) as [->|Hne].
    + rewrite lookup_insert_eq. intros [= <-]. by apply (Hkeys k book).
    + rewrite lookup_insert_ne by done. apply Hkeys.
  - intros k b Hh. apply Hnew in Hh as [[-> ->] | Hh].
    + exists (Book.markBorrowed book). by rewrite lookup_insert_eq.
    + destruct (Hheld _ _ Hh) as (book' & Hb' & Ha'). exists book'.
      rewrite lookup_insert_ne; [done|]. intros <-. by apply (Hfree k).
  - intros k book'. destruct (decide (bookId = k)) as [->|Hne].
    + intros _ _. exists memberId. apply Hnew. by left.
    + rewrite lookup_insert_ne by done. intros Hb' Ha'.
      destruct (Hunav _ _ Hb' Ha') as [holder Hh]. exists holder.
      apply Hnew. by right.
  - intros m1 m2 b H1 H2.
    apply Hnew in H1 as [[-> ->] | H1], H2 as [[-> Hb2] | H2].
    + done.
    + exfalso. by apply (Hfree m2).
    + subst b. exfalso. by apply (Hfree m1).
    + by apply (Hone m1 m2 b).
  - intros k member'. destruct (decide (memberId = k)) as [->|Hne].
    + rewrite lookup_insert_eq. intros [= <-]. simpl.
      apply NoDup_app. split; [by apply (Hnd k member)|].
      split; [|apply NoDup_singleton].
      intros x Hin Hx. apply list_elem_of_singleton in Hx as ->.
      apply (Hfree k). by exists member.
    + rewrite lookup_insert_ne by done. apply Hnd.
Qed.

Lemma consistent_return (l : Library) (memberId bookId : string)
    (member : Member.t) (book : Book.t) :
  consistent l →
  findMember memberId l = Some member →
  findBook bookId l = Some book →
  bookId ∈ Member.borrowedBookIds member →
  consistent
    (notify memberId ("You have returned: " +:+ Book.getTitle book)
       (store_member memberId (snd (Member.removeBorrowedBook bookId member))
          (store_book bookId (Book.markReturned book) l))).
Proof.
  intros [Hkeys Hheld Hunav Hone Hnd] Hm Hb Hin.
  unfold findMember, findBook in *.
  pose proof (Hnd _ _ Hm) as Hnodup.
  assert (Hmine : holds (members l) memberId bookId) by (by exists member).
  assert (Hnew : ∀ k b,
            holds (<[memberId := snd (Member.removeBorrowedBook bookId member)]>
                     (members l)) k b ↔
            holds (members l) k b ∧ b ≠ bookId).
  { intros k b. rewrite holds_insert, removeBorrowedBook_ids.
    rewrite (erase_first_elem bookId b _ Hnodup). split.
    - intros [[-> [Hb' Hne]] | [Hne Hh]]; [split; [by exists member | done]|].
      split; [exact Hh|]. intros ->. apply Hne. by apply (Hone k memberId bookId).
    - intros [Hh Hne]. destruct (decide (k = memberId)) as [->|Hk]; [|by right].
      left. split; [done|]. split; [|done].
      destruct Hh as (member' & Hm' & Hin'). congruence. }
  split; simpl.
  - intros k book'. destruct (decide (bookId = k)) as [->|Hne].
    + rewrite lookup_insert_eq. intros [= <-]. by apply (Hkeys k book).
    + rewrite lookup_insert_ne by done. apply Hkeys.
  - intros k b Hh. apply Hnew in Hh as [Hh Hne].
    destruct (Hheld _ _ Hh) as (book' & Hb' & Ha'). exists book'.
    by rewrite lookup_insert_ne.
  - intros k book'. destruct (decide (bookId = k)) as [->|Hne].
    + rewrite lookup_insert_eq. intros [= <-]. discriminate.
    + rewrite lookup_insert_ne by done. intros Hb' Ha'.
      destruct (Hunav _ _ Hb' Ha') as [holder Hh]. exists holder.
      apply Hnew. by split.
  - intros m1 m2 b H1 H2. apply Hnew in H1 as [H1 _], H2 as [H2 _].
    by apply (Hone m1 m2 b).
  - intros k member'. destruct (decide (memberId = k)) as [->|Hne].
    + rewrite lookup_insert_eq. intros [= <-]. rewrite removeBorrowedBook_ids.
      by apply erase_first_NoDup.
    + rewrite lookup_insert_ne by done. apply Hnd.
Qed.

Lemma consistent_step (l : Library) (o : Op) :
  consistent l → keeps_loans l o = true → consistent (step l o).
Proof.
  intros Hc Hguard.
  destruct (step_transition l o)
    as [id title author | id name | | memberId bookId member book Hm Hb Ha _
       | | memberId bookId member book Hm Hb Hin].
  - by apply consistent_addBook.
  - by apply consistent_registerMember.
  - exact Hc.
  - by apply consistent_borrow.
  - exact Hc.
  - by apply consistent_return.
Qed.

Lemma consistent_run (ops : list Op) (l : Library) :
  consistent l → admissible ops l = true → consistent (run ops l).
Proof.
  revert l. induction ops as [|o ops IH]; intros l Hc Hadm; [exact Hc|].
  simpl in Hadm. apply andb_prop in Hadm as [Hguard Hadm].
  change (run (o :: ops) l) with (run ops (step l o)).
  apply IH; [by apply consistent_step | exact Hadm].
Qed.

Lemma consistent_partial_bijection (l : Library) :
  consistent l → partial_bijection l.
Proof.
  intros [Hkeys Hheld Hunav Hone Hnd]. split.
  - intros k book Hb Ha. unfold Book.getId. rewrite (Hkeys _ _ Hb).
    destruct (Hunav _ _ Hb Ha) as [memberId Hh].
    exists memberId. split; [exact Hh|]. intros other Hother.
    by apply (Hone memberId other k).
  - intros bookId [memberId Hh]. split.
    + exists memberId. split; [exact Hh|]. intros other Hother.
      by apply (Hone memberId other bookId).
    + by apply (Hheld memberId).
Qed.

(** C4, as stated, fails: after [addBook] replaces a borrowed book, the id is
    still in the member's borrowed sequence while the book stored under it is
    available. *)
Lemma partial_bijection_broken_by_addBook :
  reachable replaced_while_borrowed ∧ ¬ partial_bijection replaced_while_borrowed.
Proof.
  split; [by eexists|].
  intros [_ H].
  destruct (H "B001") as [_ (book & Hb & Ha)].
  - exists "M001", (Member.mk "M001" "Alice" ["B001"] 3).
    split; [vm_compute; reflexivity | left].
  - vm_compute in Hb. injection Hb as <-. discriminate Ha.
Qed.

(** The same happens when [registerMember] replaces a member that holds a
    book: the book stays unavailable and nobody holds it. *)
Example partial_bijection_broken_by_registerMember :
  let l := run [ AddBook "B001" "Clean Code" "Robert Martin";
                 RegisterMember "M001" "Alice";
                 BorrowBook "M001" "B001";
                 RegisterMember "M001" "Alice" ] empty_library in
  (Book.isAvailable <$> findBook "B001" l) = Some false ∧
  (Member.borrowedBookIds <$> findMember "M001" l) = Some [] ∧
  dom (members l) = {[ "M001" ]}.
Proof. repeat split; vm_compute; reflexivity. Qed.

(** C4, amended.  In every library produced from the empty one by a sequence
    of [addBook], [registerMember], [borrowBook] and [returnBook] calls in
    which [addBook] is never called on the id of a stored unavailable book and
    [registerMember] is never called on the id of a stored member that holds
    books: every unavailable book is in the borrowed sequence of exactly one
    member, and every id in a borrowed sequence is in the sequence of exactly
    one member and names a stored unavailable book. *)
Theorem partial_bijection_when_loans_kept (ops : list Op) :
  admissible ops empty_library = true →
  partial_bijection (run ops empty_library).
Proof.
  intros Hadm. apply consistent_partial_bijection.
  apply consistent_run; [apply consistent_empty | exact Hadm].
Qed.

(** * Instances on concrete libraries *)

Lemma borrowBook_spec_witness :
  borrowBook "INVALID" "B001" SetUp = (false, SetUp) ∧
  ∃ l', borrowBook "M001" "B001" SetUp = (true, l') ∧
    findBook "B001" l' = Some (Book.mk "B001" "Clean Code" "Robert Martin" false) ∧
    findMember "M001" l' = Some (Member.mk "M001" "Alice" ["B001"] 3) ∧
    FakeNotificationService.sentNotifications (notificationService l') =
      [("M001", "You have borrowed: Clean Code")].
Proof.
  destruct (borrowBook_spec SetUp "INVALID" "B001") as (Hrej & _ & _).
  destruct (borrowBook_spec SetUp "M001" "B001") as (_ & Hok & _).
  split.
  - apply Hrej. left. vm_compute. reflexivity.
  - destruct (Hok alice clean_code) as (l' & H1 & H2 & H3 & H4 & _);
      try (vm_compute; reflexivity).
    exists l'. repeat split; [exact H1 | exact H2 | exact H3 | exact H4].
Defined.

Lemma returnBook_spec_witness :
  returnBook "M002" "B001" alice_holds_B001 = (false, alice_holds_B001) ∧
  ∃ l', returnBook "M001" "B001" alice_holds_B001 = (true, l') ∧
    findBook "B001" l' = Some clean_code ∧
    findMember "M001" l' = Some alice.
Proof.
  destruct (returnBook_spec alice_holds_B001 "M002" "B001") as (_ & Hcross & _).
  destruct (returnBook_spec alice_holds_B001 "M001" "B001") as (_ & _ & Hok).
  split.
  - apply (Hcross (Member.mk "M002" "Bob" [] 3) "M001"
             (Member.mk "M001" "Alice" ["B001"] 3));
      [vm_compute; reflexivity | | vm_compute; reflexivity | left].
    simpl. intros H. inversion H.
  - destruct (Hok (Member.mk "M001" "Alice" ["B001"] 3)
                (Book.mk "B001" "Clean Code" "Robert Martin" false))
      as (l' & before & after & H1 & H2 & Hsplit & Hnot & H3 & _);
      [vm_compute; reflexivity | vm_compute; reflexivity | left |].
    assert (Hba : before = [] ∧ after = []).
    { destruct before as [|x before]; simpl in Hsplit.
      - injection Hsplit as <-. done.
      - injection Hsplit as <- Hrest. exfalso. apply Hnot. left. }
    destruct Hba as [-> ->].
    exists l'. repeat split; [exact H1 | exact H2 | exact H3].
Defined.

Lemma capacity_respected_witness :
  reachable alice_at_limit ∧
  (Book.isAvailable <$> findBook "B004" alice_at_limit) = Some true ∧
  borrowBook "M001" "B004" alice_at_limit = (false, alice_at_limit).
Proof.
  assert (Hr : reachable alice_at_limit).
  { exists [ AddBook "B001" "Clean Code" "Robert Martin";
             AddBook "B002" "Design Patterns" "Gang of Four";
             AddBook "B003" "The Pragmatic Programmer" "Hunt & Thomas";
             RegisterMember "M001" "Alice"; RegisterMember "M002" "Bob";
             BorrowBook "M001" "B001"; BorrowBook "M001" "B002";
             BorrowBook "M001" "B003"; AddBook "B004" "Fourth Book" "Author" ].
    reflexivity. }
  split; [exact Hr|]. split; [vm_compute; reflexivity|].
  destruct (capacity_respected alice_at_limit Hr) as [_ Hfull].
  apply (Hfull "M001" (Member.mk "M001" "Alice" ["B001"; "B002"; "B003"] 3));
    vm_compute; reflexivity.
Defined.

Lemma find_absent_or_stored_witness :
  reachable SetUp ∧
  findBook "INVALID" SetUp = None ∧
  ∀ k book, (k, book) ∈ map_to_list (books SetUp) → Book.getId book ≠ "INVALID".
Proof.
  assert (Hr : reachable SetUp) by (eexists; reflexivity).
  destruct (find_absent_or_stored SetUp "INVALID") as (_ & _ & _ & _ & H).
  destruct (H Hr) as [[Hnone _] _].
  assert (E : findBook "INVALID" SetUp = None) by (vm_compute; reflexivity).
  split; [exact Hr|]. split; [exact E | exact (Hnone E)].
Defined.

Lemma borrow_return_frame_witness :
  borrowBook "M001" "B001" SetUp = (true, alice_holds_B001) ∧
  findBook "B002" alice_holds_B001 = findBook "B002" SetUp ∧
  findMember "M002" alice_holds_B001 = findMember "M002" SetUp.
Proof.
  assert (H : borrowBook "M001" "B001" SetUp = (true, alice_holds_B001))
    by (vm_compute; reflexivity).
  destruct (borrow_return_frame SetUp alice_holds_B001 "M001" "B001" (or_introl H))
    as (Hbooks & Hmembers & _).
  split; [exact H|]. split; [apply Hbooks | apply Hmembers]; discriminate.
Defined.

(** In [replaced_while_borrowed] the book is available and still in Alice's
    sequence: the return succeeds. *)
Lemma returnBook_ignores_availability_witness :
  findBook "B001" replaced_while_borrowed = Some clean_code ∧
  ∃ l', returnBook "M001" "B001" replaced_while_borrowed = (true, l') ∧
    FakeNotificationService.sentNotifications (notificationService l') =
      [("M001", "You have borrowed: Clean Code");
       ("M001", "You have returned: Clean Code")].
Proof.
  assert (Hb : findBook "B001" replaced_while_borrowed = Some clean_code)
    by (vm_compute; reflexivity).
  split; [exact Hb|].
  destruct (returnBook_ignores_availability replaced_while_borrowed "M001" "B001"
              (Member.mk "M001" "Alice" ["B001"] 3) clean_code)
    as [(l' & H1 & H2) _]; [vm_compute; reflexivity | exact Hb | left |].
  exists l'. split; [exact H1 | exact H2].
Defined.

Lemma partial_bijection_when_loans_kept_witness :
  admissible loans_kept_example empty_library = true ∧
  partial_bijection (run loans_kept_example empty_library).
Proof.
  assert (Hadm : admissible loans_kept_example empty_library = true)
    by (vm_compute; reflexivity).
  split; [exact Hadm|].
  exact (partial_bijection_when_loans_kept loans_kept_example Hadm).
Defined.

(** * Further properties of the library classes *)

(** ** Member *)

Lemma erase_first_found (bookId : string) (ids : list string) :
  fst (Member.erase_first bookId ids) = Member.scan bookId ids.
Proof.
  induction ids as [|x rest IH]; simpl; [reflexivity|].
  destruct (String.eqb x bookId); [reflexivity|].
  destruct (Member.erase_first bookId rest). exact IH.
Qed.

Lemma erase_first_app (bookId : string) (xs ys : list string) :
  bookId ∈ xs →
  Member.erase_first bookId (xs ++ ys) =
  (true, snd (Member.erase_first bookId xs) ++ ys).
Proof.
  induction xs as [|x rest IH]; intros Hin; [inversion Hin|].
  simpl. destruct (String.eqb_spec x bookId) as [->|Hne]; [reflexivity|].
  assert (Hrest : bookId ∈ rest) by (inversion Hin; subst; congruence).
  rewrite (IH Hrest). by destruct (Member.erase_first bookId rest).
Qed.

Lemma erase_first_snoc_new (bookId : string) (ids : list string) :
  bookId ∉ ids → Member.erase_first bookId (ids ++ [bookId]) = (true, ids).
Proof.
  induction ids as [|x rest IH]; intros Hnot; simpl.
  - by rewrite String.eqb_refl.
  - destruct (String.eqb_spec x bookId) as [->|Hne].
    + exfalso. apply Hnot. left.
    + rewrite IH; [reflexivity|]. intros H. apply Hnot. by right.
Qed.

Lemma erase_first_snoc_perm (bookId : string) (ids : list string) :
  ∃ ids', Member.erase_first bookId (ids ++ [bookId]) = (true, ids') ∧ ids' ≡ₚ ids.
Proof.
  destruct (decide (bookId ∈ ids)) as [Hin|Hnot].
  - rewrite (erase_first_app _ _ _ Hin). eexists. split; [reflexivity|].
    destruct (erase_first_present _ _ Hin) as (before & after & -> & _ & ->).
    simpl. rewrite <- app_assoc.
    apply Permutation_app_head. symmetry. apply Permutation_cons_append.
  - exists ids. split; [by apply erase_first_snoc_new | reflexivity].
Qed.

(** X1.  [removeBorrowedBook] answers what [hasBorrowedBook] answers.  When
    the answer is [false] the member is unchanged; when it is [true] the
    borrowed count drops by exactly one, one occurrence of the id is gone and
    the occurrences of every other id are as before. *)
Theorem removeBorrowedBook_found (bookId : string) (m : Member.t) :
  fst (Member.removeBorrowedBook bookId m) = Member.hasBorrowedBook bookId m ∧
  (Member.hasBorrowedBook bookId m = false →
   snd (Member.removeBorrowedBook bookId m) = m) ∧
  (Member.hasBorrowedBook bookId m = true →
   Member.getBorrowedCount (snd (Member.removeBorrowedBook bookId m)) =
     Member.getBorrowedCount m - 1 ∧
   ∀ x, count_occ String.string_dec (Member.borrowedBookIds m) x =
        (count_occ String.string_dec
           (Member.borrowedBookIds (snd (Member.removeBorrowedBook bookId m))) x
         + (if decide (x = bookId) then 1 else 0))%nat).
Proof.
  split; [|split].
  - unfold Member.removeBorrowedBook, Member.hasBorrowedBook.
    rewrite <- erase_first_found.
    by destruct (Member.erase_first bookId (Member.borrowedBookIds m)).
  - unfold Member.hasBorrowedBook. intros Hh. apply scan_false_iff in Hh.
    unfold Member.removeBorrowedBook. rewrite (erase_first_absent _ _ Hh).
    by destruct m.
  - unfold Member.hasBorrowedBook. intros Hh. apply scan_true_iff in Hh.
    unfold Member.getBorrowedCount, Member.size.
    rewrite removeBorrowedBook_ids.
    destruct (erase_first_present _ _ Hh) as (before & after & -> & _ & ->).
    simpl. split.
    + rewrite !length_app. simpl. lia.
    + intros x. rewrite !count_occ_app. simpl.
      destruct (String.string_dec bookId x) as [->|Hne].
      * rewrite decide_True by done. lia.
      * rewrite decide_False by congruence. lia.
Qed.

Lemma removeBorrowedBook_found_witness :
  let m := Member.mk "M001" "Alice" ["B001"; "B002"; "B001"] 3 in
  Member.getBorrowedCount (snd (Member.removeBorrowedBook "B001" m)) = 2 ∧
  snd (Member.removeBorrowedBook "B009" m) = m.
Proof.
  intros m.
  destruct (removeBorrowedBook_found "B001" m) as (_ & _ & Hfound).
  destruct (removeBorrowedBook_found "B009" m) as (_ & Hmissing & _).
  split.
  - destruct Hfound as [Hcount _]; [reflexivity|]. rewrite Hcount. reflexivity.
  - apply Hmissing. reflexivity.
Defined.

(** X2.  [addBorrowedBook] checks nothing: for every member, at its limit or
    not, holding the id already or not, the count grows by one, the id is
    reported as borrowed, every other id is reported as before, and the limit
    is unchanged. *)
Theorem addBorrowedBook_unchecked (bookId : string) (m : Member.t) :
  Member.getBorrowedCount (Member.addBorrowedBook bookId m) =
    Member.getBorrowedCount m + 1 ∧
  Member.hasBorrowedBook bookId (Member.addBorrowedBook bookId m) = true ∧
  (∀ x, x ≠ bookId →
     Member.hasBorrowedBook x (Member.addBorrowedBook bookId m) =
     Member.hasBorrowedBook x m) ∧
  Member.getMaxBooks (Member.addBorrowedBook bookId m) = Member.getMaxBooks m.
Proof.
  unfold Member.getBorrowedCount, Member.size, Member.hasBorrowedBook. simpl.
  split; [rewrite length_app; simpl; lia|].
  split; [apply scan_true_iff, elem_of_app; right; left|].
  split; [|reflexivity].
  intros x Hx.
  destruct (Member.scan x (Member.borrowedBookIds m)) eqn:E.
  - apply scan_true_iff, elem_of_app. left. by apply scan_true_iff.
  - apply scan_false_iff. apply scan_false_iff in E.
    rewrite elem_of_app, list_elem_of_singleton. intros [H | H]; done.
Qed.

Lemma addBorrowedBook_unchecked_witness :
  let m := Member.mk "M001" "Alice" ["B001"; "B002"; "B003"] 3 in
  Member.canBorrow m = false ∧
  Member.getBorrowedCount (Member.addBorrowedBook "B004" m) = 4 ∧
  Member.hasBorrowedBook "B005" (Member.addBorrowedBook "B004" m) = false.
Proof.
  intros m.
  destruct (addBorrowedBook_unchecked "B004" m) as (Hcount & _ & Hother & _).
  split; [reflexivity|]. split.
  - rewrite Hcount. reflexivity.
  - rewrite (Hother "B005") by discriminate. reflexivity.
Defined.

Lemma remove_after_add (bookId : string) (m : Member.t) :
  ∃ ids',
    Member.removeBorrowedBook bookId (Member.addBorrowedBook bookId m) =
      (true, Member.mk (Member.id m) (Member.name m) ids' (Member.maxBooks m)) ∧
    ids' ≡ₚ Member.borrowedBookIds m ∧
    (bookId ∉ Member.borrowedBookIds m → ids' = Member.borrowedBookIds m).
Proof.
  unfold Member.removeBorrowedBook. simpl.
  destruct (decide (bookId ∈ Member.borrowedBookIds m)) as [Hin|Hnot].
  - destruct (erase_first_snoc_perm bookId (Member.borrowedBookIds m))
      as (ids' & -> & Hp).
    exists ids'. split; [reflexivity|]. split; [exact Hp | done].
  - rewrite (erase_first_snoc_new _ _ Hnot).
    exists (Member.borrowedBookIds m). by repeat split.
Qed.

(** X3.  Removing an id right after adding it always succeeds and leaves the
    borrowed ids a permutation of what they were; when the id was not held
    before, the member is exactly as it was. *)
Theorem add_then_removeBorrowedBook (bookId : string) (m : Member.t) :
  fst (Member.removeBorrowedBook bookId (Member.addBorrowedBook bookId m)) = true ∧
  Member.borrowedBookIds
    (snd (Member.removeBorrowedBook bookId (Member.addBorrowedBook bookId m)))
    ≡ₚ Member.borrowedBookIds m ∧
  (Member.hasBorrowedBook bookId m = false →
   Member.removeBorrowedBook bookId (Member.addBorrowedBook bookId m) = (true, m)).
Proof.
  destruct (remove_after_add bookId m) as (ids' & -> & Hp & Hsame). simpl.
  split; [reflexivity|]. split; [exact Hp|].
  unfold Member.hasBorrowedBook. intros Hh. apply scan_false_iff in Hh.
  rewrite (Hsame Hh). by destruct m.
Qed.

Lemma add_then_removeBorrowedBook_witness :
  Member.removeBorrowedBook "B001" (Member.addBorrowedBook "B001" alice) =
  (true, alice).
Proof.
  destruct (add_then_removeBorrowedBook "B001" alice) as (_ & _ & H).
  apply H. reflexivity.
Defined.

(** X4.  The comparison in [canBorrow] converts the limit to [size_t]: a
    member built with a negative limit may always borrow, and a member built
    with limit 0 never may. *)
Theorem canBorrow_negative_limit (m : Member.t) :
  (- 2 ^ 31 ≤ Member.getMaxBooks m < 0 →
   Member.getBorrowedCount m < 2 ^ 63 →
   Member.canBorrow m = true) ∧
  (Member.getMaxBooks m = 0 → Member.canBorrow m = false).
Proof.
  unfold Member.canBorrow, Member.to_size_t, Member.getMaxBooks,
    Member.getBorrowedCount.
  split.
  - intros Hneg Hsize. apply Z.ltb_lt.
    rewrite <- (Z.mod_add (Member.maxBooks m) 1 (2 ^ 64)) by lia.
    rewrite Z.mod_small by lia. lia.
  - intros ->. apply Z.ltb_ge. unfold Member.size. rewrite Z.mod_0_l by lia. lia.
Qed.

Lemma canBorrow_negative_limit_witness :
  Member.canBorrow
    (Member.mk "M009" "Zed" ["B001"; "B002"; "B003"; "B004"] (-1)) = true ∧
  Member.canBorrow (Member.new "M010" "Yan" 0) = false.
Proof.
  split.
  - apply (canBorrow_negative_limit
             (Member.mk "M009" "Zed" ["B001"; "B002"; "B003"; "B004"] (-1)));
      vm_compute; [split; [discriminate | reflexivity] | reflexivity].
  - apply (canBorrow_negative_limit (Member.new "M010" "Yan" 0)). reflexivity.
Defined.

(** ** FakeNotificationService *)

(** X5.  Whatever was recorded before, after [sendNotification] the last
    recipient and the last message are the ones just sent, the count is one
    higher, and the earlier records are still there, in order. *)
Theorem sendNotification_last (memberId message : string)
    (n : FakeNotificationService.t) :
  let n' := FakeNotificationService.sendNotification memberId message n in
  FakeNotificationService.getLastRecipient n' = memberId ∧
  FakeNotificationService.getLastMessage n' = message ∧
  FakeNotificationService.getNotificationCount n' =
    FakeNotificationService.getNotificationCount n + 1 ∧
  FakeNotificationService.sentNotifications n
    `prefix_of` FakeNotificationService.sentNotifications n'.
Proof.
  unfold FakeNotificationService.getLastRecipient,
    FakeNotificationService.getLastMessage,
    FakeNotificationService.getNotificationCount. simpl.
  rewrite last_snoc, length_app. simpl.
  repeat split; [lia | by eexists].
Qed.

(** X6.  The getters of the fake on an empty record: the count is 0 exactly
    when nothing is recorded, both "last" getters then answer the empty
    string, and this is the state [clear] produces from any record. *)
Theorem notifications_empty (n : FakeNotificationService.t) :
  (FakeNotificationService.getNotificationCount n = 0 ↔
   FakeNotificationService.sentNotifications n = []) ∧
  (FakeNotificationService.getNotificationCount n = 0 →
   FakeNotificationService.getLastMessage n = EmptyString ∧
   FakeNotificationService.getLastRecipient n = EmptyString) ∧
  FakeNotificationService.getNotificationCount (FakeNotificationService.clear n) = 0.
Proof.
  unfold FakeNotificationService.getNotificationCount,
    FakeNotificationService.getLastMessage,
    FakeNotificationService.getLastRecipient.
  destruct n as [[|p sent]]; simpl.
  - repeat split; reflexivity.
  - repeat split; intros; try discriminate; lia.
Qed.

Lemma notifications_empty_witness :
  FakeNotificationService.getLastMessage
    (notificationService (snd (returnBook "M001" "B001" SetUp))) = EmptyString.
Proof.
  destruct (notifications_empty
              (notificationService (snd (returnBook "M001" "B001" SetUp))))
    as (_ & H & _).
  apply H. vm_compute. reflexivity.
Defined.

(** ** registerMember and addBook *)

(** X7.  After [registerMember id name], [findMember id] finds a member with
    that id and name, the limit 3 and no borrowed book, whatever was stored
    under [id] before (the borrowed ids of a replaced member are dropped);
    every other member, every book and the notifier's record are as before. *)
Theorem registerMember_findMember (l : Library) (id name : string) :
  findMember id (registerMember id name l) = Some (Member.mk id name [] 3) ∧
  (∀ k, k ≠ id → findMember k (registerMember id name l) = findMember k l) ∧
  books (registerMember id name l) = books l ∧
  notificationService (registerMember id name l) = notificationService l.
Proof.
  unfold findMember, registerMember. simpl.
  split; [apply lookup_insert_eq|].
  split; [|done]. intros k Hk. by apply lookup_insert_ne.
Qed.

Lemma registerMember_findMember_witness :
  findMember "M001" alice_holds_B001 = Some (Member.mk "M001" "Alice" ["B001"] 3) ∧
  findMember "M001" (registerMember "M001" "Alice" alice_holds_B001) = Some alice ∧
  findMember "M002" (registerMember "M001" "Alice" alice_holds_B001) =
    findMember "M002" alice_holds_B001.
Proof.
  destruct (registerMember_findMember alice_holds_B001 "M001" "Alice")
    as (Hnew & Hother & _).
  split; [vm_compute; reflexivity|].
  split; [exact Hnew | apply Hother; discriminate].
Defined.

(** X8.  [addBook id title author] touches nothing but the entry under [id]:
    every other book, every member (so also a borrowed sequence that lists
    [id]) and the notifier's record are as before. *)
Theorem addBook_frame (l : Library) (id title author : string) :
  (∀ k, k ≠ id → findBook k (addBook id title author l) = findBook k l) ∧
  members (addBook id title author l) = members l ∧
  notificationService (addBook id title author l) = notificationService l.
Proof.
  unfold findBook, addBook. simpl.
  split; [|done]. intros k Hk. by apply lookup_insert_ne.
Qed.

Lemma addBook_frame_witness :
  findBook "B002" (addBook "B001" "Refactoring" "Martin Fowler" alice_holds_B001) =
    findBook "B002" alice_holds_B001 ∧
  findMember "M001" (addBook "B001" "Refactoring" "Martin Fowler" alice_holds_B001) =
    Some (Member.mk "M001" "Alice" ["B001"] 3).
Proof.
  destruct (addBook_frame alice_holds_B001 "B001" "Refactoring" "Martin Fowler")
    as (Hother & Hmembers & _).
  split; [apply Hother; discriminate|].
  unfold findMember. rewrite Hmembers. vm_compute. reflexivity.
Defined.

(** ** The stored ids *)

Lemma step_dom (l : Library) (o : Op) :
  dom (books (step l o)) =
    match o with
    | AddBook id _ _ => {[ id ]} ∪ dom (books l)
    | _ => dom (books l)
    end ∧
  dom (members (step l o)) =
    match o with
    | RegisterMember id _ => {[ id ]} ∪ dom (members l)
    | _ => dom (members l)
    end.
Proof.
  destruct (step_transition l o)
    as [id title author | id name | | memberId bookId member book Hm Hb _ _
       | | memberId bookId member book Hm Hb _]; simpl;
    rewrite ?dom_insert_L; try done.
  - unfold findMember, findBook in *. split.
    + apply subseteq_union_1_L, singleton_subseteq_l. by apply elem_of_dom_2 in Hb.
    + apply subseteq_union_1_L, singleton_subseteq_l. by apply elem_of_dom_2 in Hm.
  - unfold findMember, findBook in *. split.
    + apply subseteq_union_1_L, singleton_subseteq_l. by apply elem_of_dom_2 in Hb.
    + apply subseteq_union_1_L, singleton_subseteq_l. by apply elem_of_dom_2 in Hm.
Qed.

(** X9.  No call removes a record: over any sequence of calls the sets of
    stored book ids and of stored member ids only grow.  [borrowBook] and
    [returnBook], successful or not, leave both sets exactly as they are;
    [addBook] adds its id to the first and [registerMember] to the second. *)
Theorem stored_ids_only_grow (l : Library) :
  (∀ ops, dom (books l) ⊆ dom (books (run ops l)) ∧
          dom (members l) ⊆ dom (members (run ops l))) ∧
  (∀ memberId bookId,
     dom (books (snd (borrowBook memberId bookId l))) = dom (books l) ∧
     dom (members (snd (borrowBook memberId bookId l))) = dom (members l) ∧
     dom (books (snd (returnBook memberId bookId l))) = dom (books l) ∧
     dom (members (snd (returnBook memberId bookId l))) = dom (members l)) ∧
  (∀ id title author,
     dom (books (addBook id title author l)) = {[ id ]} ∪ dom (books l)) ∧
  (∀ id name,
     dom (members (registerMember id name l)) = {[ id ]} ∪ dom (members l)).
Proof.
  split; [|split; [|split]].
  - intros ops. revert l. induction ops as [|o ops IH]; intros l; [done|].
    change (run (o :: ops) l) with (run ops (step l o)).
    destruct (IH (step l o)) as [IHb IHm].
    destruct (step_dom l o) as [Hb Hm].
    split.
    + etrans; [|exact IHb]. rewrite Hb.
      destruct o; [apply union_subseteq_r | done | done | done].
    + etrans; [|exact IHm]. rewrite Hm.
      destruct o; [done | apply union_subseteq_r | done | done].
  - intros memberId bookId.
    destruct (step_dom l (BorrowBook memberId bookId)) as [Hb Hm].
    destruct (step_dom l (ReturnBook memberId bookId)) as [Hb' Hm'].
    done.
  - intros id title author. apply (step_dom l (AddBook id title author)).
  - intros id name. apply (step_dom l (RegisterMember id name)).
Qed.

(** ** getAvailableBookCount *)

(** A fold that adds a weight per entry, as the two counting loops do. *)
Section weighted_fold.
Context {A : Type} (f : string → A → Z → Z) (w : A → Z).
Hypothesis f_adds : ∀ k x c, f k x c = c + w x.

Lemma weighted_fold_insert_None (m : gmap string A) (k : string) (x : A) :
  m !! k = None → map_fold f 0 (<[k := x]> m) = map_fold f 0 m + w x.
Proof using f_adds.
  intros Hk. rewrite map_fold_insert_L; [apply f_adds | | exact Hk].
  intros j1 j2 z1 z2 y _ _ _. rewrite !f_adds. lia.
Qed.

Lemma weighted_fold_insert_Some (m : gmap string A) (k : string) (x old : A) :
  m !! k = Some old →
  map_fold f 0 (<[k := x]> m) = map_fold f 0 m - w old + w x.
Proof using f_adds.
  intros Hk.
  rewrite <- (insert_delete_id m k old Hk) at 2.
  rewrite <- (insert_delete_eq m k x).
  rewrite !weighted_fold_insert_None by apply lookup_delete_eq. lia.
Qed.

Lemma weighted_fold_bounds (m : gmap string A) (hi : Z) :
  (∀ x, 0 ≤ w x ≤ hi) → 0 ≤ map_fold f 0 m ≤ hi * Z.of_nat (size m).
Proof using f_adds.
  intros Hw. induction m as [|k x m Hk IH] using map_ind.
  - rewrite map_fold_empty, map_size_empty. lia.
  - rewrite (weighted_fold_insert_None m k x Hk), map_size_insert_None by done.
    specialize (Hw x). nia.
Qed.
End weighted_fold.

Lemma count_adds (k : string) (book : Book.t) (count : Z) :
  (if Book.isAvailable book then count + 1 else count) =
  count + availability_weight book.
Proof. unfold availability_weight. destruct (Book.isAvailable book); lia. Qed.

Lemma count_insert (l : Library) (k : string) (book : Book.t) :
  getAvailableBookCount (set_books (<[k := book]> (books l)) l) =
  getAvailableBookCount l
  - from_option availability_weight 0 (findBook k l)
  + availability_weight book.
Proof.
  unfold getAvailableBookCount, findBook. simpl.
  destruct (books l !! k) as [old|] eqn:E; simpl.
  - by apply (weighted_fold_insert_Some _ availability_weight count_adds).
  - rewrite (weighted_fold_insert_None _ availability_weight count_adds) by done.
    lia.
Qed.

(** X10.  The count of available books lies between 0 and the number of
    stored books, so that the [int] counter of the loop cannot overflow while
    fewer than 2^31 books are stored; it is 0 for a library without books. *)
Theorem getAvailableBookCount_bounds (l : Library) :
  0 ≤ getAvailableBookCount l ≤ Z.of_nat (size (books l)) ∧
  (books l = ∅ → getAvailableBookCount l = 0).
Proof.
  split.
  - pose proof (weighted_fold_bounds _ availability_weight count_adds (books l) 1)
      as H.
    unfold getAvailableBookCount.
    assert (Hw : ∀ x, 0 ≤ availability_weight x ≤ 1).
    { intros x. unfold availability_weight. destruct (Book.isAvailable x); lia. }
    specialize (H Hw). lia.
  - intros E. unfold getAvailableBookCount. rewrite E. apply map_fold_empty.
Qed.

Lemma getAvailableBookCount_bounds_witness :
  getAvailableBookCount empty_library = 0.
Proof.
  apply (getAvailableBookCount_bounds empty_library). reflexivity.
Defined.

(** X11.  [addBook] raises the count of available books by one, except when
    it replaces a book that was available, where the count stays. *)
Theorem getAvailableBookCount_addBook (l : Library) (id title author : string) :
  getAvailableBookCount (addBook id title author l) =
  match findBook id l with
  | Some old => if Book.isAvailable old then getAvailableBookCount l
                else getAvailableBookCount l + 1
  | None => getAvailableBookCount l + 1
  end.
Proof.
  unfold addBook. rewrite count_insert.
  destruct (findBook id l) as [old|]; simpl; unfold availability_weight; simpl.
  - destruct (Book.isAvailable old); lia.
  - lia.
Qed.

(** X12.  A successful [borrowBook] lowers the count of available books by
    exactly one.  A successful [returnBook] raises it by one when the book was
    unavailable and leaves it when the book was already available.  A
    rejected call leaves it. *)
Theorem getAvailableBookCount_borrow_return (l l' : Library)
    (memberId bookId : string) :
  (borrowBook memberId bookId l = (true, l') →
   getAvailableBookCount l' = getAvailableBookCount l - 1) ∧
  (returnBook memberId bookId l = (true, l') →
   ∃ book, findBook bookId l = Some book ∧
     getAvailableBookCount l' =
       if Book.isAvailable book then getAvailableBookCount l
       else getAvailableBookCount l + 1) ∧
  (borrowBook memberId bookId l = (false, l') ∨
   returnBook memberId bookId l = (false, l') →
   getAvailableBookCount l' = getAvailableBookCount l).
Proof.
  split; [|split].
  - intros H.
    destruct (borrowBook_true_inv _ _ _ _ H) as (member & book & Hm & Hb & Ha & Hc).
    rewrite (borrowBook_success _ _ _ _ _ Hm Hb Ha Hc) in H. injection H as <-.
    change (getAvailableBookCount
              (set_books (<[bookId := Book.markBorrowed book]> (books l)) l) =
            getAvailableBookCount l - 1).
    rewrite count_insert, Hb. simpl. unfold availability_weight. rewrite Ha.
    simpl. lia.
  - intros H.
    destruct (returnBook_true_inv _ _ _ _ H) as (member & book & Hm & Hb & Hh).
    rewrite (returnBook_success _ _ _ _ _ Hm Hb Hh) in H. injection H as <-.
    exists book. split; [exact Hb|].
    change (getAvailableBookCount
              (set_books (<[bookId := Book.markReturned book]> (books l)) l) =
            if Book.isAvailable book then getAvailableBookCount l
            else getAvailableBookCount l + 1).
    rewrite count_insert, Hb. simpl. unfold availability_weight. simpl.
    destruct (Book.isAvailable book); lia.
  - intros [H | H].
    + destruct (borrowBook_cases l memberId bookId) as [E | [l2 E]];
        rewrite E in H; [by injection H as <- | discriminate].
    + destruct (returnBook_cases l memberId bookId) as [E | [l2 E]];
        rewrite E in H; [by injection H as <- | discriminate].
Qed.

Lemma getAvailableBookCount_borrow_return_witness :
  getAvailableBookCount SetUp = 3 ∧
  getAvailableBookCount alice_holds_B001 = 2.
Proof.
  assert (H : borrowBook "M001" "B001" SetUp = (true, alice_holds_B001))
    by (vm_compute; reflexivity).
  destruct (getAvailableBookCount_borrow_return SetUp alice_holds_B001 "M001" "B001")
    as (Hborrow & _).
  assert (E : getAvailableBookCount SetUp = 3) by (vm_compute; reflexivity).
  split; [exact E|]. rewrite (Hborrow H), E. reflexivity.
Defined.

(** ** Available books and loans *)

Lemma loans_adds (k : string) (member : Member.t) (total : Z) :
  total + Member.getBorrowedCount member = total + Member.getBorrowedCount member.
Proof. reflexivity. Qed.

Lemma loans_insert (l : Library) (k : string) (member : Member.t) :
  total_loans (set_members (<[k := member]> (members l)) l) =
  total_loans l
  - from_option Member.getBorrowedCount 0 (findMember k l)
  + Member.getBorrowedCount member.
Proof.
  unfold total_loans, findMember. simpl.
  destruct (members l !! k) as [old|] eqn:E; simpl.
  - by apply (weighted_fold_insert_Some _ Member.getBorrowedCount loans_adds).
  - rewrite (weighted_fold_insert_None _ Member.getBorrowedCount loans_adds) by done.
    lia.
Qed.

Lemma getBorrowedCount_removed (bookId : string) (member : Member.t) :
  bookId ∈ Member.borrowedBookIds member →
  Member.getBorrowedCount (snd (Member.removeBorrowedBook bookId member)) =
  Member.getBorrowedCount member - 1.
Proof.
  intros Hin. unfold Member.getBorrowedCount, Member.size.
  rewrite removeBorrowedBook_ids.
  destruct (erase_first_present _ _ Hin) as (before & after & -> & _ & ->).
  simpl. rewrite !length_app. simpl. lia.
Qed.

Lemma balanced_step (l : Library) (o : Op) :
  consistent l → balanced l → keeps_loans l o = true → balanced (step l o).
Proof.
  intros Hc Hbal Hguard. unfold balanced in *.
  destruct (step_transition l o)
    as [id title author | id name | | memberId bookId member book Hm Hb Ha _
       | | memberId bookId member book Hm Hb Hin].
  - change (total_loans (addBook id title author l)) with (total_loans l).
    unfold addBook. rewrite count_insert. simpl in Hguard. unfold findBook in *.
    destruct (books l !! id) as [old|] eqn:E; simpl.
    + rewrite map_size_insert_Some by (by rewrite E).
      unfold availability_weight. rewrite Hguard. simpl. lia.
    + rewrite map_size_insert_None, Nat2Z.inj_succ, <- Hbal by done.
      unfold availability_weight. simpl. lia.
  - change (getAvailableBookCount (registerMember id name l))
      with (getAvailableBookCount l).
    unfold registerMember. rewrite loans_insert. simpl in Hguard.
    unfold findMember in *.
    assert (Hnew : Member.getBorrowedCount
                     (Member.new id name Member.default_maxBooks) = 0)
      by reflexivity.
    rewrite Hnew.
    destruct (members l !! id) as [old|] eqn:E; simpl; [|lia].
    apply bool_decide_eq_true in Hguard.
    unfold Member.getBorrowedCount, Member.size. rewrite Hguard. simpl. lia.
  - exact Hbal.
  - change (getAvailableBookCount
              (set_books (<[bookId := Book.markBorrowed book]> (books l)) l)
            + total_loans
                (set_members
                   (<[memberId := Member.addBorrowedBook bookId member]> (members l)) l)
            = Z.of_nat (size (<[bookId := Book.markBorrowed book]> (books l)))).
    rewrite count_insert, loans_insert, Hb, Hm. simpl.
    rewrite map_size_insert_Some by (unfold findBook in Hb; by rewrite Hb).
    unfold availability_weight. rewrite Ha. simpl.
    unfold Member.getBorrowedCount, Member.size. simpl. rewrite length_app. simpl.
    unfold Member.getBorrowedCount, Member.size in Hbal. lia.
  - exact Hbal.
  - change (getAvailableBookCount
              (set_books (<[bookId := Book.markReturned book]> (books l)) l)
            + total_loans
                (set_members
                   (<[memberId := snd (Member.removeBorrowedBook bookId member)]>
                      (members l)) l)
            = Z.of_nat (size (<[bookId := Book.markReturned book]> (books l)))).
    rewrite count_insert, loans_insert, Hb, Hm. simpl.
    rewrite map_size_insert_Some by (unfold findBook in Hb; by rewrite Hb).
    rewrite (getBorrowedCount_removed _ _ Hin).
    destruct (held_unavailable l Hc memberId bookId) as (book' & Hb' & Ha').
    { by exists member. }
    unfold findBook in Hb. rewrite Hb in Hb'. injection Hb' as <-.
    unfold availability_weight, Book.isAvailable. rewrite Ha'. simpl. lia.
Qed.

Lemma consistent_balanced_run (ops : list Op) (l : Library) :
  consistent l → balanced l → admissible ops l = true →
  consistent (run ops l) ∧ balanced (run ops l).
Proof.
  revert l. induction ops as [|o ops IH]; intros l Hc Hbal Hadm; [done|].
  simpl in Hadm. apply andb_prop in Hadm as [Hguard Hadm].
  change (run (o :: ops) l) with (run ops (step l o)).
  apply IH; [by apply consistent_step | by apply balanced_step | exact Hadm].
Qed.

(** X13.  Over a sequence of calls that never replaces an unavailable book
    or a member that holds books, the available books and the borrowed ids
    add up to the stored books: [getAvailableBookCount] plus the borrowed
    counts of all members is the number of entries of the book map. *)
Theorem available_plus_loans (ops : list Op) :
  admissible ops empty_library = true →
  getAvailableBookCount (run ops empty_library)
  + total_loans (run ops empty_library)
  = Z.of_nat (size (books (run ops empty_library))).
Proof.
  intros Hadm.
  apply (consistent_balanced_run ops empty_library);
    [apply consistent_empty | reflexivity | exact Hadm].
Qed.

Lemma available_plus_loans_witness :
  admissible loans_kept_example empty_library = true ∧
  getAvailableBookCount (run loans_kept_example empty_library) = 0 ∧
  total_loans (run loans_kept_example empty_library) = 2.
Proof.
  assert (Hadm : admissible loans_kept_example empty_library = true)
    by (vm_compute; reflexivity).
  pose proof (available_plus_loans loans_kept_example Hadm) as H.
  assert (E : getAvailableBookCount (run loans_kept_example empty_library) = 0)
    by (vm_compute; reflexivity).
  split; [exact Hadm|]. split; [exact E|].
  rewrite E, Z.add_0_l in H. rewrite H. vm_compute. reflexivity.
Defined.

(** ** Calls in sequence *)

Lemma borrowBook_rejected_unavailable (l : Library) (memberId bookId : string)
    (book : Book.t) :
  findBook bookId l = Some book → Book.isAvailable book = false →
  borrowBook memberId bookId l = (false, l).
Proof.
  intros Hb Ha. unfold borrowBook. rewrite Hb, Ha.
  by destruct (findMember memberId l).
Qed.

Lemma returnBook_rejected_not_held (l : Library) (memberId bookId : string) :
  (∀ member, findMember memberId l = Some member →
             bookId ∉ Member.borrowedBookIds member) →
  returnBook memberId bookId l = (false, l).
Proof.
  intros Hnot. unfold returnBook.
  destruct (findMember memberId l) as [member|]; [|done].
  destruct (findBook bookId l); [|done].
  unfold Member.hasBorrowedBook.
  specialize (Hnot member eq_refl). apply scan_false_iff in Hnot.
  by rewrite Hnot.
Qed.

Lemma markReturned_markBorrowed (book : Book.t) :
  Book.isAvailable book = true →
  Book.markReturned (Book.markBorrowed book) = book.
Proof. destruct book as [i t a av]. simpl. by intros ->. Qed.

(** X14.  Once [borrowBook] has succeeded for a book, every further
    [borrowBook] for that book, by the same or by any other member id, is
    rejected and changes nothing. *)
Theorem borrowBook_twice_rejected (l l1 : Library) (memberId bookId : string) :
  borrowBook memberId bookId l = (true, l1) →
  ∀ other, borrowBook other bookId l1 = (false, l1).
Proof.
  intros H other.
  destruct (borrowBook_true_inv _ _ _ _ H) as (member & book & Hm & Hb & Ha & Hc).
  rewrite (borrowBook_success _ _ _ _ _ Hm Hb Ha Hc) in H. injection H as <-.
  apply (borrowBook_rejected_unavailable _ other bookId (Book.markBorrowed book));
    [|reflexivity].
  unfold findBook. simpl. apply lookup_insert_eq.
Qed.

Lemma borrowBook_twice_rejected_witness :
  borrowBook "M001" "B001" SetUp = (true, alice_holds_B001) ∧
  borrowBook "M002" "B001" alice_holds_B001 = (false, alice_holds_B001).
Proof.
  assert (H : borrowBook "M001" "B001" SetUp = (true, alice_holds_B001))
    by (vm_compute; reflexivity).
  split; [exact H|].
  exact (borrowBook_twice_rejected SetUp alice_holds_B001 "M001" "B001" H "M002").
Defined.

(** X15.  After a successful [borrowBook], [returnBook] by the same member
    for the same book succeeds.  It restores the book map exactly, leaves the
    member with a permutation of the ids it held before the loan (and restores
    the member map exactly when the member did not list the id before), and
    the notifier's record has grown by the two messages. *)
Theorem borrow_then_return (l l1 : Library) (memberId bookId : string) :
  borrowBook memberId bookId l = (true, l1) →
  ∃ l2 member member2 book,
    returnBook memberId bookId l1 = (true, l2) ∧
    books l2 = books l ∧
    findMember memberId l = Some member ∧
    findMember memberId l2 = Some member2 ∧
    Member.borrowedBookIds member2 ≡ₚ Member.borrowedBookIds member ∧
    (Member.hasBorrowedBook bookId member = false → members l2 = members l) ∧
    findBook bookId l = Some book ∧
    FakeNotificationService.sentNotifications (notificationService l2) =
      FakeNotificationService.sentNotifications (notificationService l) ++
      [(memberId, "You have borrowed: " +:+ Book.title book);
       (memberId, "You have returned: " +:+ Book.title book)].
Proof.
  intros H.
  destruct (borrowBook_true_inv _ _ _ _ H) as (member & book & Hm & Hb & Ha & Hc).
  rewrite (borrowBook_success _ _ _ _ _ Hm Hb Ha Hc) in H. injection H as <-.
  destruct (remove_after_add bookId member) as (ids' & Hrem & Hperm & Hsame).
  eexists _, member, _, book.
  split.
  { apply (returnBook_success _ memberId bookId
             (Member.addBorrowedBook bookId member) (Book.markBorrowed book)).
    - unfold findMember. simpl. apply lookup_insert_eq.
    - unfold findBook. simpl. apply lookup_insert_eq.
    - unfold Member.hasBorrowedBook. apply scan_true_iff. simpl.
      apply elem_of_app. right. left. }
  unfold findMember, findBook in *. simpl. rewrite Hrem. simpl.
  split.
  { rewrite insert_insert_eq, (markReturned_markBorrowed book Ha).
    by apply insert_id. }
  split; [exact Hm|].
  split; [apply lookup_insert_eq|].
  split; [exact Hperm|].
  split.
  { unfold Member.hasBorrowedBook. intros Hh. apply scan_false_iff in Hh.
    rewrite insert_insert_eq, (Hsame Hh). apply insert_id.
    rewrite Hm. by destruct member. }
  split; [exact Hb|].
  by rewrite <- app_assoc.
Qed.

Lemma borrow_then_return_witness :
  ∃ l2, returnBook "M001" "B001" alice_holds_B001 = (true, l2) ∧
        books l2 = books SetUp ∧ members l2 = members SetUp.
Proof.
  assert (H : borrowBook "M001" "B001" SetUp = (true, alice_holds_B001))
    by (vm_compute; reflexivity).
  destruct (borrow_then_return SetUp alice_holds_B001 "M001" "B001" H)
    as (l2 & member & member2 & book & Hret & Hbooks & Hm & _ & _ & Hmembers & _).
  exists l2. split; [exact Hret|]. split; [exact Hbooks|].
  apply Hmembers.
  assert (E : findMember "M001" SetUp = Some alice) by (vm_compute; reflexivity).
  rewrite E in Hm. injection Hm as <-. reflexivity.
Defined.

(** X16.  In a library produced by calls that never replace an unavailable
    book or a member that holds books, a returned book cannot be returned
    again: after a successful [returnBook], every [returnBook] for that book,
    by any member id, is rejected and changes nothing. *)
Theorem returnBook_twice_rejected (ops : list Op) (l1 : Library)
    (memberId bookId : string) :
  admissible ops empty_library = true →
  returnBook memberId bookId (run ops empty_library) = (true, l1) →
  ∀ other, returnBook other bookId l1 = (false, l1).
Proof.
  intros Hadm H other.
  pose proof (consistent_run ops empty_library consistent_empty Hadm) as Hc.
  destruct (returnBook_true_inv _ _ _ _ H) as (member & book & Hm & Hb & Hh).
  rewrite (returnBook_success _ _ _ _ _ Hm Hb Hh) in H. injection H as <-.
  apply scan_true_iff in Hh.
  pose proof (consistent_return _ _ _ _ _ Hc Hm Hb Hh) as Hc1.
  apply returnBook_rejected_not_held. intros holder Hholder Hin.
  destruct (held_unavailable _ Hc1 other bookId) as (book' & Hb' & Ha').
  { exists holder. split; [exact Hholder | exact Hin]. }
  simpl in Hb'. rewrite lookup_insert_eq in Hb'. injection Hb' as <-.
  discriminate Ha'.
Qed.

Lemma returnBook_twice_rejected_witness :
  let ops := [ AddBook "B001" "Clean Code" "Robert Martin";
               RegisterMember "M001" "Alice"; RegisterMember "M002" "Bob";
               BorrowBook "M001" "B001" ] in
  let l1 := snd (returnBook "M001" "B001" (run ops empty_library)) in
  returnBook "M001" "B001" l1 = (false, l1) ∧
  returnBook "M002" "B001" l1 = (false, l1).
Proof.
  intros ops l1.
  assert (Hadm : admissible ops empty_library = true) by (vm_compute; reflexivity).
  assert (H : returnBook "M001" "B001" (run ops empty_library) = (true, l1))
    by (vm_compute; reflexivity).
  split; exact (returnBook_twice_rejected ops l1 "M001" "B001" Hadm H _).
Defined.

(** Without that restriction the same book can be returned twice: the id is
    listed twice after the borrowed book is added again and borrowed again. *)
Example returnBook_twice_after_replacement :
  let l := run [ BorrowBook "M001" "B001"; ReturnBook "M001" "B001" ]
               replaced_while_borrowed in
  (Member.borrowedBookIds <$>
     findMember "M001" (run [BorrowBook "M001" "B001"] replaced_while_borrowed))
    = Some ["B001"; "B001"] ∧
  fst (returnBook "M001" "B001" l) = true.
Proof. split; vm_compute; reflexivity. Qed.

(** X17.  In a reachable library the member that has just returned a book
    can borrow it again at once. *)
Theorem return_then_borrow (l l1 : Library) (memberId bookId : string) :
  reachable l →
  returnBook memberId bookId l = (true, l1) →
  ∃ l2, borrowBook memberId bookId l1 = (true, l2).
Proof.
  intros Hr H.
  destruct (returnBook_true_inv _ _ _ _ H) as (member & book & Hm & Hb & Hh).
  rewrite (returnBook_success _ _ _ _ _ Hm Hb Hh) in H. injection H as <-.
  apply scan_true_iff in Hh.
  destruct (reachable_within_limit l Hr _ _ Hm) as [Hmax Hle].
  destruct (removeBorrowedBook_fields bookId member) as (_ & _ & Hsame).
  pose proof (getBorrowedCount_removed _ _ Hh) as Hless.
  eexists.
  apply (borrowBook_success _ memberId bookId
           (snd (Member.removeBorrowedBook bookId member)) (Book.markReturned book)).
  - unfold findMember. simpl. apply lookup_insert_eq.
  - unfold findBook. simpl. apply lookup_insert_eq.
  - reflexivity.
  - unfold Member.getMaxBooks, Member.getBorrowedCount in *.
    rewrite canBorrow_nonneg by (rewrite Hsame, Hmax; by vm_compute).
    apply Z.ltb_lt. rewrite Hsame. lia.
Qed.

Lemma return_then_borrow_witness :
  reachable alice_holds_B001 ∧
  ∃ l2, borrowBook "M001" "B001" (snd (returnBook "M001" "B001" alice_holds_B001))
        = (true, l2).
Proof.
  assert (Hr : reachable alice_holds_B001).
  { exists [ AddBook "B001" "Clean Code" "Robert Martin";
             AddBook "B002" "Design Patterns" "Gang of Four";
             AddBook "B003" "The Pragmatic Programmer" "Hunt & Thomas";
             RegisterMember "M001" "Alice"; RegisterMember "M002" "Bob";
             BorrowBook "M001" "B001" ].
    reflexivity. }
  split; [exact Hr|].
  apply (return_then_borrow alice_holds_B001 _ "M001" "B001" Hr).
  vm_compute. reflexivity.
Defined.

(** ** Notifications over a sequence of calls *)

Lemma step_notifications (l : Library) (o : Op) :
  ∃ suffix,
    FakeNotificationService.sentNotifications (notificationService (step l o)) =
      FakeNotificationService.sentNotifications (notificationService l) ++ suffix ∧
    length suffix = if succeeded l o then 1%nat else 0%nat.
Proof.
  destruct o as [id title author | id name | memberId bookId | memberId bookId];
    simpl.
  - exists []. by rewrite app_nil_r.
  - exists []. by rewrite app_nil_r.
  - destruct (borrowBook_cases l memberId bookId) as [H | [l' H]].
    + rewrite H. exists []. by rewrite app_nil_r.
    + destruct (borrowBook_true_inv _ _ _ _ H) as (member & book & Hm & Hb & Ha & Hc).
      rewrite (borrowBook_success _ _ _ _ _ Hm Hb Ha Hc). simpl. by eexists.
  - destruct (returnBook_cases l memberId bookId) as [H | [l' H]].
    + rewrite H. exists []. by rewrite app_nil_r.
    + destruct (returnBook_true_inv _ _ _ _ H) as (member & book & Hm & Hb & Hh).
      rewrite (returnBook_success _ _ _ _ _ Hm Hb Hh). simpl. by eexists.
Qed.

(** X18.  Over any sequence of calls the library only appends to the
    notifier's record, and it appends exactly one record per [borrowBook] or
    [returnBook] call that returns [true]: the notification count grows by the
    number of successful calls. *)
Theorem notifications_count_successes (ops : list Op) (l : Library) :
  ∃ suffix,
    FakeNotificationService.sentNotifications (notificationService (run ops l)) =
      FakeNotificationService.sentNotifications (notificationService l) ++ suffix ∧
    length suffix = successes ops l ∧
    FakeNotificationService.getNotificationCount (notificationService (run ops l)) =
      FakeNotificationService.getNotificationCount (notificationService l)
      + Z.of_nat (successes ops l).
Proof.
  revert l. induction ops as [|o ops IH]; intros l.
  - exists []. simpl. rewrite app_nil_r. repeat split. lia.
  - change (run (o :: ops) l) with (run ops (step l o)).
    destruct (IH (step l o)) as (rest & Hrest & Hlen & _).
    destruct (step_notifications l o) as (first & Hfirst & Hone).
    exists (first ++ rest).
    assert (Hsent :
      FakeNotificationService.sentNotifications
        (notificationService (run ops (step l o))) =
      FakeNotificationService.sentNotifications (notificationService l)
      ++ first ++ rest) by (by rewrite Hrest, Hfirst, <- app_assoc).
    assert (Hcount : length (first ++ rest) = successes (o :: ops) l).
    { rewrite length_app, Hlen, Hone. reflexivity. }
    split; [exact Hsent|]. split; [exact Hcount|].
    unfold FakeNotificationService.getNotificationCount.
    rewrite Hsent, length_app, Hcount. lia.
Qed.

(** ** Invariants of reachable libraries *)

(** X19.  In a reachable library every record is stored under its own id:
    what [findBook id] finds answers [id] to [getId], and so does what
    [findMember id] finds. *)
Theorem found_under_own_id (l : Library) (id : string) :
  reachable l →
  (∀ book, findBook id l = Some book → Book.getId book = id) ∧
  (∀ member, findMember id l = Some member → Member.getId member = id).
Proof.
  intros Hr. destruct (reachable_well_keyed l Hr) as [Hb Hm].
  split; [intros book; apply Hb | intros member; apply Hm].
Qed.

Lemma found_under_own_id_witness :
  reachable SetUp ∧
  (Book.getId <$> findBook "B002" SetUp) = Some "B002".
Proof.
  assert (Hr : reachable SetUp) by (eexists; reflexivity).
  split; [exact Hr|].
  destruct (found_under_own_id SetUp "B002" Hr) as [Hb _].
  destruct (findBook "B002" SetUp) as [book|] eqn:E; [|vm_compute in E; discriminate E].
  simpl. f_equal. by apply Hb.
Defined.

(** X20.  Over a sequence of calls that never replaces an unavailable book
    or a member that holds books, no member lists a book id twice. *)
Theorem borrowed_ids_unique (ops : list Op) (id : string) (member : Member.t) :
  admissible ops empty_library = true →
  findMember id (run ops empty_library) = Some member →
  NoDup (Member.borrowedBookIds member).
Proof.
  intros Hadm Hm.
  pose proof (consistent_run ops empty_library consistent_empty Hadm) as Hc.
  exact (borrowed_nodup _ Hc id member Hm).
Qed.

Lemma borrowed_ids_unique_witness :
  admissible loans_kept_example empty_library = true ∧
  ∃ member,
    findMember "M002" (run loans_kept_example empty_library) = Some member ∧
    NoDup (Member.borrowedBookIds member).
Proof.
  assert (Hadm : admissible loans_kept_example empty_library = true)
    by (vm_compute; reflexivity).
  assert (Hm : findMember "M002" (run loans_kept_example empty_library) =
               Some (Member.mk "M002" "Bob" ["B002"] 3))
    by (vm_compute; reflexivity).
  split; [exact Hadm|]. eexists. split; [exact Hm|].
  exact (borrowed_ids_unique loans_kept_example "M002" _ Hadm Hm).
Defined.

(** ** The availability flag *)

(** X21.  The flag of a stored book changes over one call only in three
    ways: from available to unavailable by a successful [borrowBook] of that
    book, from unavailable to available by a successful [returnBook] of that
    book, or from unavailable to available by an [addBook] on its id.
    [registerMember] never changes it. *)
Theorem availability_changes (l : Library) (o : Op) (k : string)
    (book book' : Book.t) :
  findBook k l = Some book →
  findBook k (step l o) = Some book' →
  Book.isAvailable book' ≠ Book.isAvailable book →
  match o with
  | BorrowBook memberId bookId =>
      bookId = k ∧ Book.isAvailable book = true ∧
      fst (borrowBook memberId bookId l) = true
  | ReturnBook memberId bookId =>
      bookId = k ∧ Book.isAvailable book = false ∧
      fst (returnBook memberId bookId l) = true
  | AddBook id _ _ => id = k ∧ Book.isAvailable book = false
  | RegisterMember _ _ => False
  end.
Proof.
  intros Hb Hb' Hdiff. unfold findBook in *.
  destruct o as [id title author | id name | memberId bookId | memberId bookId];
    simpl in Hb'.
  - destruct (decide (id = k)) as [->|Hne].
    + rewrite lookup_insert_eq in Hb'. injection Hb' as <-.
      split; [reflexivity|]. simpl in Hdiff.
      destruct (Book.isAvailable book); [done | reflexivity].
    + rewrite lookup_insert_ne in Hb' by done. congruence.
  - congruence.
  - destruct (borrowBook_cases l memberId bookId) as [H | [l' H]].
    + rewrite H in Hb'. simpl in Hb'. congruence.
    + destruct (borrowBook_true_inv _ _ _ _ H) as (member & bk & Hm & Hbk & Ha & Hc).
      rewrite (borrowBook_success _ _ _ _ _ Hm Hbk Ha Hc) in Hb' |- *.
      simpl in Hb'. unfold findBook in Hbk.
      destruct (decide (bookId = k)) as [->|Hne].
      * rewrite Hb in Hbk. injection Hbk as <-. by repeat split.
      * rewrite lookup_insert_ne in Hb' by done. congruence.
  - destruct (returnBook_cases l memberId bookId) as [H | [l' H]].
    + rewrite H in Hb'. simpl in Hb'. congruence.
    + destruct (returnBook_true_inv _ _ _ _ H) as (member & bk & Hm & Hbk & Hh).
      rewrite (returnBook_success _ _ _ _ _ Hm Hbk Hh) in Hb' |- *.
      simpl in Hb'. unfold findBook in Hbk.
      destruct (decide (bookId = k)) as [->|Hne].
      * rewrite Hb in Hbk. injection Hbk as <-.
        rewrite lookup_insert_eq in Hb'. injection Hb' as <-.
        simpl in Hdiff. split; [reflexivity|]. split; [|reflexivity].
        destruct (Book.isAvailable book); [done | reflexivity].
      * rewrite lookup_insert_ne in Hb' by done. congruence.
Qed.

Lemma availability_changes_witness :
  Book.isAvailable clean_code = true ∧
  fst (borrowBook "M001" "B001" SetUp) = true.
Proof.
  destruct (availability_changes SetUp (BorrowBook "M001" "B001") "B001"
              clean_code (Book.markBorrowed clean_code))
    as (_ & Ha & Hok);
    [vm_compute; reflexivity | vm_compute; reflexivity | discriminate |].
  split; [exact Ha | exact Hok].
Defined.

(** * Properties of the small exercises *)

(** X22.  For every [int] other than [INT_MIN], [absolute] returns the
    absolute value, which is a non-negative [int] that [absolute] maps to
    itself, and a number and its opposite have the same result; at [INT_MIN]
    the negation overflows and there is no result. *)
Theorem absolute_spec (n : Z) :
  INT_MIN ≤ n ≤ INT_MAX →
  (n ≠ INT_MIN →
   AbsoluteTest.absolute n = Some (Z.abs n) ∧
   0 ≤ Z.abs n ≤ INT_MAX ∧
   AbsoluteTest.absolute (Z.abs n) = Some (Z.abs n) ∧
   AbsoluteTest.absolute (- n) = AbsoluteTest.absolute n) ∧
  (n = INT_MIN → AbsoluteTest.absolute n = None).
Proof.
  unfold AbsoluteTest.absolute, int_result, INT_MIN, INT_MAX. intros Hn. split.
  - intros Hmin.
    assert (Habs : (if Z.abs n <? 0 then
                      if (- 2 ^ 31 <=? - Z.abs n) && (- Z.abs n <=? 2 ^ 31 - 1)
                      then Some (- Z.abs n) else None
                    else Some (Z.abs n)) = Some (Z.abs n)).
    { destruct (Z.ltb_spec (Z.abs n) 0); [lia | reflexivity]. }
    rewrite Habs.
    destruct (Z.ltb_spec n 0) as [Hneg|Hpos].
    + destruct (Z.ltb_spec (- n) 0); [lia|].
      destruct (Z.leb_spec (- 2 ^ 31) (- n)); [|lia].
      destruct (Z.leb_spec (- n) (2 ^ 31 - 1)); [|lia].
      simpl. rewrite Z.abs_neq by lia. repeat split; lia.
    + rewrite Z.abs_eq by lia.
      destruct (Z.ltb_spec (- n) 0) as [Hneg'|Hzero].
      * rewrite Z.opp_involutive.
        destruct (Z.leb_spec (- 2 ^ 31) n); [|lia].
        destruct (Z.leb_spec n (2 ^ 31 - 1)); [|lia].
        simpl. repeat split; lia.
      * assert (n = 0) as -> by lia. simpl. repeat split; lia.
  - intros ->. reflexivity.
Qed.

Lemma absolute_spec_witness :
  AbsoluteTest.absolute (-2) = Some 2 ∧ AbsoluteTest.absolute INT_MIN = None.
Proof.
  split.
  - destruct (absolute_spec (-2)) as [H _]; [by vm_compute|].
    destruct H as [H _]; [discriminate | exact H].
  - destruct (absolute_spec INT_MIN) as [_ H]; [by vm_compute|].
    by apply H.
Defined.

(** X23.  The function named [add] returns the product of its arguments.
    Its result is the sum of the arguments only for the pairs (0, 0) and
    (2, 2); for 2 and 3 it is 6. *)
Theorem add_is_product (a b : Z) :
  INT_MIN ≤ a ≤ INT_MAX → INT_MIN ≤ b ≤ INT_MAX →
  (∀ r, Main.add a b = Some r → r = a * b) ∧
  (INT_MIN ≤ a * b ≤ INT_MAX → Main.add a b = Some (a * b)) ∧
  (Main.add a b = Some (a + b) ↔ (a = 0 ∧ b = 0) ∨ (a = 2 ∧ b = 2)).
Proof.
  unfold Main.add, int_result, INT_MIN, INT_MAX. intros Ha Hb.
  split; [|split].
  - intros r. destruct (_ && _); [by intros [= <-] | discriminate].
  - intros Hr.
    destruct (Z.leb_spec (- 2 ^ 31) (a * b)); [|lia].
    destruct (Z.leb_spec (a * b) (2 ^ 31 - 1)); [|lia]. reflexivity.
  - split.
    + destruct (_ && _); [|discriminate]. intros [= Heq].
      assert (Hone : (a - 1) * (b - 1) = 1) by lia.
      destruct (Z.eq_mul_1 _ _ Hone) as [H1 | H1].
      * right. assert (a = 2) as -> by lia. lia.
      * left. assert (a = 0) as -> by lia. lia.
    + intros [[-> ->] | [-> ->]]; reflexivity.
Qed.

Lemma add_is_product_witness :
  Main.add 2 3 = Some 6 ∧ Main.add 2 3 ≠ Some (2 + 3).
Proof.
  destruct (add_is_product 2 3) as (_ & Hprod & Hsum);
    [by vm_compute | by vm_compute |].
  split.
  - apply Hprod. by vm_compute.
  - intros H. apply Hsum in H. destruct H as [[H _] | [_ H]]; discriminate H.
Defined.

(** X24.  On a counter whose value is an [int], [decrement] undoes
    [increment] and [increment] undoes [decrement], except at the ends of the
    range: [increment] at [INT_MAX] and [decrement] at [INT_MIN] overflow. *)
Theorem counter_increment_decrement (c : Counter.t) :
  INT_MIN ≤ Counter.getCount c ≤ INT_MAX →
  (Counter.getCount c < INT_MAX →
   ∃ c', Counter.increment c = Some c' ∧
         Counter.getCount c' = Counter.getCount c + 1 ∧
         Counter.decrement c' = Some c) ∧
  (INT_MIN < Counter.getCount c →
   ∃ c', Counter.decrement c = Some c' ∧
         Counter.getCount c' = Counter.getCount c - 1 ∧
         Counter.increment c' = Some c) ∧
  (Counter.getCount c = INT_MAX → Counter.increment c = None) ∧
  (Counter.getCount c = INT_MIN → Counter.decrement c = None).
Proof.
  destruct c as [v].
  unfold Counter.getCount, Counter.increment, Counter.decrement, int_result,
    INT_MIN, INT_MAX. simpl. intros Hv.
  split; [|split; [|split]].
  - intros Hlt.
    destruct (Z.leb_spec (- 2 ^ 31) (v + 1)); [|lia].
    destruct (Z.leb_spec (v + 1) (2 ^ 31 - 1)); [|lia]. simpl.
    eexists. split; [reflexivity|]. split; [reflexivity|]. simpl.
    replace (v + 1 - 1) with v by lia.
    destruct (Z.leb_spec (- 2 ^ 31) v); [|lia].
    destruct (Z.leb_spec v (2 ^ 31 - 1)); [|lia]. reflexivity.
  - intros Hgt.
    destruct (Z.leb_spec (- 2 ^ 31) (v - 1)); [|lia].
    destruct (Z.leb_spec (v - 1) (2 ^ 31 - 1)); [|lia]. simpl.
    eexists. split; [reflexivity|]. split; [reflexivity|]. simpl.
    replace (v - 1 + 1) with v by lia.
    destruct (Z.leb_spec (- 2 ^ 31) v); [|lia].
    destruct (Z.leb_spec v (2 ^ 31 - 1)); [|lia]. reflexivity.
  - intros ->. reflexivity.
  - intros ->. reflexivity.
Qed.

Lemma counter_increment_decrement_witness :
  ∃ c', Counter.increment (Counter.setCount 10 Counter.new) = Some c' ∧
        Counter.getCount c' = 11.
Proof.
  destruct (counter_increment_decrement (Counter.setCount 10 Counter.new))
    as [H _]; [by vm_compute|].
  destruct H as (c' & Hinc & Hcount & _); [by vm_compute|].
  exists c'. split; [exact Hinc | exact Hcount].
Defined.
